(** * DynUNet: construction and forward protocol

    A shallow embedding of [monai/networks/nets/dynunet.py]: the planner
    (filter derivation, length and shape validation), the stage builder,
    the recursive skip-layer composer [create_skips], and the forward
    protocol of [DynUNetSkipLayer] and [DynUNet] with the shared head
    buffer threaded as explicit state.

    The convolution blocks of [monai.networks.blocks.dynunet_block] and
    the tensor primitives of torch are outside the embedded file; they
    enter through the interface [BlockLibrary]. *)

From Stdlib Require Import ZArith Lia.
From stdpp Require Import base list strings.

(** ** Python values and errors *)

(** [Union[Sequence[int], int]]: a per-stage kernel, stride or padding. *)
Inductive KS :=
| KInt (z : Z)
| KSeq (l : list Z).

(** The messages of the [ValueError]s raised in the file. *)
Inductive ErrMsg :=
| FiltersLength                (* "length of filters should be no less than the length of strides." *)
| DeepSuprNum                  (* "deep_supr_num should be less than the number of up sample layers." *)
| KernelStrideLength           (* "length of kernel_size and strides should be the same, and no less than 3." *)
| KernelBlock (idx : nat)      (* "length of kernel_size in block {idx} should be the same as spatial_dims." *)
| StrideBlock (idx : nat)      (* "length of stride in block {idx} should be the same as spatial_dims." *)
| SkipLengths (d u : nat).     (* "{len(downsamples)} != {len(upsamples)}" *)

Inductive Error :=
| ValueError (msg : ErrMsg)
| IndexError                   (* list index out of range *)
| TypeError.                   (* zip over None, call of a non-callable *)

Inductive result (A : Type) :=
| Ok (a : A)
| Raise (e : Error).
Arguments Ok {A} a.
Arguments Raise {A} e.

#[global] Instance result_ret : MRet result := λ A a, Ok a.
#[global] Instance result_bind : MBind result := λ A B f m,
  match m with
  | Ok a => f a
  | Raise e => Raise e
  end.

Definition is_ok {A} (r : result A) : bool :=
  match r with Ok _ => true | Raise _ => false end.

(** A computation that may raise and that threads a state [S]; the state
    reached when the exception is raised is kept, as a Python object
    mutated before the [raise] stays mutated. *)
Definition StateErr (S A : Type) : Type := S → result A * S.

#[global] Instance state_err_ret {S} : MRet (StateErr S) := λ A a st, (Ok a, st).
#[global] Instance state_err_bind {S} : MBind (StateErr S) := λ A B f m st,
  match m st with
  | (Ok a, st') => f a st'
  | (Raise e, st') => (Raise e, st')
  end.

Definition lift {S A} (r : result A) : StateErr S A := λ st, (r, st).
Definition get_state {S} : StateErr S S := λ st, (Ok st, st).

(** [l[i]] with Python's negative indices. *)
Definition py_index {A} (l : list A) (i : Z) : result A :=
  let n := Z.of_nat (length l) in
  let j := if (i <? 0)%Z then (n + i)%Z else i in
  if ((0 <=? j) && (j <? n))%Z
  then match l !! Z.to_nat j with Some a => Ok a | None => Raise IndexError end
  else Raise IndexError.

(** [l[i] = v] on a shared list: the updated list, or [IndexError]. *)
Definition py_setitem {A} (l : list A) (i : Z) (v : A) : result (list A) :=
  let n := Z.of_nat (length l) in
  let j := if (i <? 0)%Z then (n + i)%Z else i in
  if ((0 <=? j) && (j <? n))%Z then Ok (<[Z.to_nat j := v]> l) else Raise IndexError.

(** [l[:-k]], [l[1:-1]], [l[1:]] and [l[::-1]]. *)
Definition slice_to_neg {A} (k : nat) (l : list A) : list A := take (length l - k) l.
Definition slice_1_to_neg1 {A} (l : list A) : list A := drop 1 (take (length l - 1) l).
Definition slice_from_1 {A} (l : list A) : list A := drop 1 l.
Definition slice_rev {A} (l : list A) : list A := reverse l.

(** ** Constructor arguments and blocks *)

Record Spec := {
  spatial_dims : Z;
  in_channels : Z;
  cls_out_channels : Z;
  seg_out_channels : Z;
  kernel_size : list KS;
  strides : list KS;
  output_paddings : list KS;
  filters : option (list Z);
  dropout : option string;
  norm_name : string;
  act_name : string;
  deep_supr_num : Z;
  res_block : bool;
  trans_bias : bool;
  pool_type : string;
  pool_fmap : Z
}.

Inductive BlockClass := UnetBasicBlock | UnetResBlock | UnetUpBlock.

(** The [params] dictionary of [get_module_list]; the last two keys are
    present only on the upsample path. *)
Record ConvParams := {
  p_spatial_dims : Z;
  p_in_channels : Z;
  p_out_channels : Z;
  p_kernel_size : KS;
  p_stride : KS;
  p_norm_name : string;
  p_act_name : string;
  p_dropout : option string;
  p_output_padding : option KS;
  p_trans_bias : option bool
}.

(** An instantiated block of the block library, identified by its class
    and the arguments it was built with. *)
Inductive Block :=
| ConvBlock (cls : BlockClass) (params : ConvParams)
| UnetOutBlock (sd inc outc : Z) (dropout : option string)
| UNetClsOutBlock (sd inc outc : Z) (pool_type : string) (pool_fmap : Z).

(** The skip-layer chain: [DynUNetSkipLayer] nodes ending in the
    bottleneck block.  The shared [heads] list is not a field here: it is
    the state of the forward pass. *)
Inductive Node :=
| Bottleneck (b : Block)
| SkipLayer (index : Z) (downsample upsample : Block) (next_layer : Node)
            (super_head : option Block).

(** Construction threads the list of blocks instantiated so far. *)
Abbreviation Ctor := (StateErr (list Block)).

(** A call of a block class: the new block is recorded. *)
Definition instantiate (b : Block) : Ctor Block := λ built, (Ok b, built ++ [b]).

Fixpoint ctor_map {A B} (f : A → Ctor B) (l : list A) : Ctor (list B) :=
  match l with
  | [] => mret []
  | a :: l' => b ← f a; bs ← ctor_map f l'; mret (b :: bs)
  end.

(** ** Planner *)

(** [[min(2 ** (5 + i), 320 if spatial_dims == 3 else 512) for i in range(n)]] *)
Definition derive_filters (sd : Z) (n : nat) : list Z :=
  (λ i : nat, Z.min (2 ^ (5 + Z.of_nat i)) (if decide (sd = 3%Z) then 320 else 512)) <$> seq 0 n.

Definition init_filters (s : Spec) : list Z :=
  match filters s with
  | None => derive_filters (spatial_dims s) (length (strides s))
  | Some fs => fs
  end.

Definition check_filters (s : Spec) (fs : list Z) : result (list Z) :=
  if decide (length fs < length (strides s))
  then Raise (ValueError FiltersLength)
  else Ok (take (length (strides s)) fs).

Definition is_int (k : KS) : bool := match k with KInt _ => true | KSeq _ => false end.
Definition ks_len (k : KS) : Z := match k with KInt _ => 1%Z | KSeq l => Z.of_nat (length l) end.

(** The body of the [for idx, k_i in enumerate(kernels)] loop, from
    position [idx] on. *)
Fixpoint check_entries (sd : Z) (strides : list KS) (idx : nat) (kernels : list KS)
  : result unit :=
  match kernels with
  | [] => Ok tt
  | kernel :: rest =>
      stride ← py_index strides (Z.of_nat idx);
      (if negb (is_int kernel) && negb (bool_decide (ks_len kernel = sd))
       then Raise (ValueError (KernelBlock idx)) else Ok tt);;
      (if negb (is_int stride) && negb (bool_decide (ks_len stride = sd))
       then Raise (ValueError (StrideBlock idx)) else Ok tt);;
      check_entries sd strides (S idx) rest
  end.

Definition check_kernel_stride (s : Spec) : result unit :=
  let kernels := kernel_size s in
  let strides := strides s in
  if negb (bool_decide (length kernels = length strides)) || bool_decide (length kernels < 3)
  then Raise (ValueError KernelStrideLength)
  else check_entries (spatial_dims s) strides 0 kernels.

(** ** Stage builder *)

Definition conv_block (s : Spec) : BlockClass :=
  if res_block s then UnetResBlock else UnetBasicBlock.

Definition conv_params (s : Spec) (in_c out_c : Z) (kernel stride : KS) : ConvParams :=
  {| p_spatial_dims := spatial_dims s; p_in_channels := in_c; p_out_channels := out_c;
     p_kernel_size := kernel; p_stride := stride;
     p_norm_name := norm_name s; p_act_name := act_name s; p_dropout := dropout s;
     p_output_padding := None; p_trans_bias := None |}.

Definition up_params (s : Spec) (in_c out_c : Z) (kernel stride output_padding : KS)
    (trans_bias : bool) : ConvParams :=
  {| p_spatial_dims := spatial_dims s; p_in_channels := in_c; p_out_channels := out_c;
     p_kernel_size := kernel; p_stride := stride;
     p_norm_name := norm_name s; p_act_name := act_name s; p_dropout := dropout s;
     p_output_padding := Some output_padding; p_trans_bias := Some trans_bias |}.

Definition get_input_block (s : Spec) (fs : list Z) : Ctor Block :=
  f0 ← lift (py_index fs 0);
  k0 ← lift (py_index (kernel_size s) 0);
  s0 ← lift (py_index (strides s) 0);
  instantiate (ConvBlock (conv_block s) (conv_params s (in_channels s) f0 k0 s0)).

Definition get_bottleneck (s : Spec) (fs : list Z) : Ctor Block :=
  f2 ← lift (py_index fs (-2));
  f1 ← lift (py_index fs (-1));
  k1 ← lift (py_index (kernel_size s) (-1));
  s1 ← lift (py_index (strides s) (-1));
  instantiate (ConvBlock (conv_block s) (conv_params s f2 f1 k1 s1)).

Definition get_cls_output_block (s : Spec) (fs : list Z) (idx : Z) : Ctor Block :=
  f ← lift (py_index fs idx);
  instantiate (UNetClsOutBlock (spatial_dims s) f (cls_out_channels s) (pool_type s) (pool_fmap s)).

Definition get_seg_output_block (s : Spec) (fs : list Z) (idx : Z) : Ctor Block :=
  f ← lift (py_index fs idx);
  instantiate (UnetOutBlock (spatial_dims s) f (seg_out_channels s) (dropout s)).

(** Both loops of [get_module_list]; [zip] stops at the shortest of its
    arguments. *)
Definition get_module_list (s : Spec) (in_channels out_channels : list Z)
    (kernel_size strides : list KS) (conv_block : BlockClass) (upsample : bool)
    (output_paddings : option (list KS)) (trans_bias : bool) : Ctor (list Block) :=
  if upsample then
    match output_paddings with
    | None => lift (Raise TypeError)
    | Some output_paddings =>
        ctor_map
          (λ '(in_c, (out_c, (kernel, (stride, output_padding)))),
             instantiate (ConvBlock conv_block
                            (up_params s in_c out_c kernel stride output_padding trans_bias)))
          (zip in_channels (zip out_channels (zip kernel_size (zip strides output_paddings))))
    end
  else
    ctor_map
      (λ '(in_c, (out_c, (kernel, stride))),
         instantiate (ConvBlock conv_block (conv_params s in_c out_c kernel stride)))
      (zip in_channels (zip out_channels (zip kernel_size strides))).

Definition get_downsamples (s : Spec) (fs : list Z) : Ctor (list Block) :=
  let inp := slice_to_neg 2 fs in
  let out := slice_1_to_neg1 fs in
  let strides' := slice_1_to_neg1 (strides s) in
  let kernel_size' := slice_1_to_neg1 (kernel_size s) in
  get_module_list s inp out kernel_size' strides' (conv_block s) false None false.

Definition get_upsamples (s : Spec) (fs : list Z) : Ctor (list Block) :=
  let in_channels := slice_to_neg 1 (slice_rev fs) in
  let out_channels := slice_from_1 (slice_rev fs) in
  let strides' := slice_to_neg 1 (slice_rev (strides s)) in
  let kernel_size' := slice_to_neg 1 (slice_rev (kernel_size s)) in
  let output_paddings' := slice_rev (output_paddings s) in
  get_module_list s in_channels out_channels kernel_size' strides' UnetUpBlock true
    (Some output_paddings') (trans_bias s).

Definition get_deep_supervision_heads (s : Spec) (fs : list Z) : Ctor (list Block) :=
  let num_up_layers := (Z.of_nat (length (strides s)) - 1)%Z in
  if (deep_supr_num s >=? num_up_layers)%Z
  then lift (Raise (ValueError DeepSuprNum))
  else ctor_map (λ i : nat, get_seg_output_block s fs (Z.of_nat i + 1))
                (seq 0 (Z.to_nat (deep_supr_num s))).

(** ** Skip-layer composer *)

(** The nested function [create_skips] of [__init__]. *)
Fixpoint create_skips (index : Z) (downsamples upsamples : list Block) (bottleneck : Block)
    (super_heads : list Block) : result Node :=
  if negb (bool_decide (length downsamples = length upsamples))
  then Raise (ValueError (SkipLengths (length downsamples) (length upsamples)))
  else
    match downsamples with
    | [] => Ok (Bottleneck bottleneck)
    | d :: downsamples' =>
        let '(cur_super_head, super_heads') :=
          if (0 <? index)%Z && bool_decide (0 < length super_heads)
          then (head super_heads, drop 1 super_heads)
          else (None, super_heads) in
        next_layer ← create_skips (1 + index) downsamples' (slice_from_1 upsamples)
                                  bottleneck super_heads';
        u ← py_index upsamples 0;
        Ok (SkipLayer index d u next_layer cur_super_head)
    end.

(** ** The block library and torch, as an interface *)

Class BlockLibrary := {
  Tensor : Type;
  shape : Tensor → list Z;                          (* [t.shape] *)
  torch_empty : Z → Tensor;                         (* [torch.empty(n)] *)
  block_forward : Block → Tensor → Tensor;          (* forward of a conv, output or cls block *)
  up_forward : Block → Tensor → Tensor → Tensor;    (* [UnetUpBlock.forward(inp, skip)] *)
  interpolate : Tensor → list Z → Tensor;           (* [interpolate(input, size)] *)
  torch_stack : list Tensor → Z → Tensor            (* [torch.stack(tensors, dim)] *)
}.

(** The attributes of a constructed [DynUNet]. *)
Record Net `{BlockLibrary} := {
  net_filters : list Z;
  input_block : Block;
  downsamples : list Block;
  bottleneck : Block;
  upsamples : list Block;
  cls_output_block : Block;
  seg_output_block : Block;
  net_deep_supr_num : Z;
  heads : list Tensor;
  deep_supervision_heads : list Block;
  skip_layers : Node
}.

(** [DynUNet.__init__]; [self.apply(self.initialize_weights)] changes
    weights only and has no counterpart here. *)
Definition construct `{BlockLibrary} (s : Spec) : Ctor Net :=
  fs ← lift (check_filters s (init_filters s));
  input_block ← get_input_block s fs;
  downsamples ← get_downsamples s fs;
  bottleneck ← get_bottleneck s fs;
  upsamples ← get_upsamples s fs;
  cls_output_block ← get_cls_output_block s fs (-1);
  seg_output_block ← get_seg_output_block s fs 0;
  let heads := replicate (Z.to_nat (deep_supr_num s)) (torch_empty 1) in
  deep_supervision_heads ← get_deep_supervision_heads s fs;
  lift (check_kernel_stride s);;
  skip_layers ← lift (create_skips 0 (input_block :: downsamples) (slice_rev upsamples)
                                   bottleneck deep_supervision_heads);
  mret {| net_filters := fs; input_block := input_block; downsamples := downsamples;
          bottleneck := bottleneck; upsamples := upsamples;
          cls_output_block := cls_output_block; seg_output_block := seg_output_block;
          net_deep_supr_num := deep_supr_num s; heads := heads;
          deep_supervision_heads := deep_supervision_heads; skip_layers := skip_layers |}.

(** [DynUNet(...)]: the constructor run on a fresh instance; the second
    component lists the blocks instantiated, in order. *)
Definition new_DynUNet `{BlockLibrary} (s : Spec) : result Net * list Block := construct s [].

(** ** Forward protocol *)

(** The forward pass threads the shared [heads] list. *)
Abbreviation Fwd := (StateErr (list Tensor)).

(** [self.heads[i] = v] *)
Definition set_head `{BlockLibrary} (i : Z) (v : Tensor) : Fwd unit := λ hs,
  match py_setitem hs i v with
  | Ok hs' => (Ok tt, hs')
  | Raise e => (Raise e, hs)
  end.

(** [DynUNetSkipLayer.forward].  The method exists on skip layers only;
    on a bare bottleneck block the call returns a tensor, whose unpacking
    into a pair is outside the model and rendered as [TypeError]. *)
Fixpoint skip_forward `{BlockLibrary} (n : Node) (x : Tensor) : Fwd (Tensor * Tensor) :=
  match n with
  | Bottleneck _ => lift (Raise TypeError)
  | SkipLayer index downsample upsample next_layer super_head =>
      let down_out := block_forward downsample x in
      '(bottleneck_out, next_out) ←
        match next_layer with
        | SkipLayer _ _ _ _ _ => skip_forward next_layer down_out
        | Bottleneck b => let o := block_forward b down_out in mret (o, o)
        end;
      let up_out := up_forward upsample next_out down_out in
      match super_head with
      | Some h =>
          if (0 <? index)%Z then set_head (index - 1) (block_forward h up_out) else mret tt
      | None => mret tt
      end;;
      mret (bottleneck_out, up_out)
  end.

(** [DynUNet.forward]; [training] is [self.training]. *)
Definition forward `{BlockLibrary} (net : Net) (training : bool) (x : Tensor)
  : Fwd (Tensor * Tensor) :=
  '(bottleneck_out, up_out) ← skip_forward (skip_layers net) x;
  let cls_out := block_forward (cls_output_block net) bottleneck_out in
  let seg_out := block_forward (seg_output_block net) up_out in
  if training then
    hs ← get_state;
    let out_all := [seg_out] ++ ((λ feature_map, interpolate feature_map (drop 2 (shape seg_out))) <$> hs) in
    mret (cls_out, torch_stack out_all 1)
  else mret (cls_out, seg_out).

(** ** Views of a composed chain *)

(** The levels of a chain from the outermost inwards: the [index] and
    the [super_head] of each [DynUNetSkipLayer]. *)
Fixpoint levels (n : Node) : list (Z * option Block) :=
  match n with
  | Bottleneck _ => []
  | SkipLayer index _ _ next_layer super_head => (index, super_head) :: levels next_layer
  end.

(** The block in which the chain ends. *)
Fixpoint leaf (n : Node) : Block :=
  match n with
  | Bottleneck b => b
  | SkipLayer _ _ _ next_layer _ => leaf next_layer
  end.

Definition is_skip_layer (n : Node) : bool :=
  match n with Bottleneck _ => false | SkipLayer _ _ _ _ _ => true end.

(** The slots [index - 1] that a pass over the chain assigns, in the
    order of the assignments (innermost level first). *)
Fixpoint write_slots (n : Node) : list Z :=
  match n with
  | Bottleneck _ => []
  | SkipLayer index _ _ next_layer super_head =>
      write_slots next_layer ++
      match super_head with
      | Some _ => if (0 <? index)%Z then [(index - 1)%Z] else []
      | None => []
      end
  end.

(** What the descent feeds into the bottleneck: the downsample blocks of
    the chain applied in turn. *)
Fixpoint descend `{BlockLibrary} (n : Node) (x : Tensor) : Tensor :=
  match n with
  | Bottleneck _ => x
  | SkipLayer _ downsample _ next_layer _ => descend next_layer (block_forward downsample x)
  end.

(** The pair a node hands to its caller, with the head buffer left out. *)
Fixpoint eval_node `{BlockLibrary} (n : Node) (x : Tensor) : Tensor * Tensor :=
  match n with
  | Bottleneck b => let o := block_forward b x in (o, o)
  | SkipLayer _ downsample upsample next_layer _ =>
      let down_out := block_forward downsample x in
      let '(bottleneck_out, next_out) := eval_node next_layer down_out in
      (bottleneck_out, up_forward upsample next_out down_out)
  end.

(** The assignments to the head buffer, slot and value, in order. *)
Fixpoint head_writes `{BlockLibrary} (n : Node) (x : Tensor) : list (Z * Tensor) :=
  match n with
  | Bottleneck _ => []
  | SkipLayer index downsample _ next_layer super_head =>
      head_writes next_layer (block_forward downsample x) ++
      match super_head with
      | Some h =>
          if (0 <? index)%Z
          then [((index - 1)%Z, block_forward h (eval_node n x).2)]
          else []
      | None => []
      end
  end.

Fixpoint run_writes `{BlockLibrary} (ws : list (Z * Tensor)) : Fwd unit :=
  match ws with
  | [] => mret tt
  | (i, v) :: ws' => set_head i v;; run_writes ws'
  end.

(** [up_out] of the skip layer [k] levels below the root of [n]. *)
Fixpoint up_out_at `{BlockLibrary} (n : Node) (x : Tensor) (k : nat) : option Tensor :=
  match n with
  | Bottleneck _ => None
  | SkipLayer _ downsample _ next_layer _ =>
      match k with
      | O => Some (eval_node n x).2
      | S k' => up_out_at next_layer (block_forward downsample x) k'
      end
  end.


(** The skip layers of a chain are numbered from [index] on. *)
Fixpoint indexed_from (index : Z) (n : Node) : Prop :=
  match n with
  | Bottleneck _ => True
  | SkipLayer i _ _ next_layer _ => i = index ∧ indexed_from (1 + index) next_layer
  end.

(** A tensor of batch size [b] with [r] spatial axes. *)
Definition bshape `{BlockLibrary} (b : Z) (r : nat) (t : Tensor) : Prop :=
  ∃ c spatial, shape t = b :: c :: spatial ∧ length spatial = r.

(** What the forward pass assumes of the blocks and of torch, on shapes:
    convolution and up blocks keep the batch size and the number of
    spatial axes, an output block sets the channel count and keeps the
    rest, [interpolate] sets the spatial extent, and [torch.stack] at
    [dim=1] of equally shaped tensors inserts their number as axis 1. *)
Class BlockContracts `{BlockLibrary} : Prop := {
  conv_shape : ∀ cls p t b r,
    bshape b r t → bshape b r (block_forward (ConvBlock cls p) t);
  up_shape : ∀ cls p inp skip b r,
    bshape b r inp → bshape b r skip → bshape b r (up_forward (ConvBlock cls p) inp skip);
  out_shape : ∀ sd inc outc dr t b c spatial,
    shape t = b :: c :: spatial →
    shape (block_forward (UnetOutBlock sd inc outc dr) t) = b :: outc :: spatial;
  interpolate_shape : ∀ t size b c spatial,
    shape t = b :: c :: spatial → length size = length spatial →
    shape (interpolate t size) = b :: c :: size;
  stack_shape : ∀ ts b rest,
    ts ≠ [] → Forall (λ t, shape t = b :: rest) ts →
    shape (torch_stack ts 1) = b :: Z.of_nat (length ts) :: rest
}.

(** ** A shape-level instance of the interface *)

(** Tensors reduced to their shapes.  A convolution maps
    [b :: c :: spatial] to [b :: out_channels :: spatial / stride]; the
    up block returns the spatial extent of its skip input. *)
Definition stride_div (stride : KS) (spatial : list Z) : list Z :=
  match stride with
  | KInt z => (λ d, d / z)%Z <$> spatial
  | KSeq l => zip_with Z.div spatial (take (length spatial) (l ++ replicate (length spatial) 1%Z))
  end.

Definition shape_block_forward (b : Block) (t : list Z) : list Z :=
  match t with
  | n :: _ :: spatial =>
      match b with
      | ConvBlock _ p => n :: p_out_channels p :: stride_div (p_stride p) spatial
      | UnetOutBlock _ _ outc _ => n :: outc :: spatial
      | UNetClsOutBlock _ _ outc _ _ => [n; outc]
      end
  | _ => t
  end.

Definition shape_up_forward (b : Block) (inp skip : list Z) : list Z :=
  match b, skip with
  | ConvBlock _ p, n :: _ :: spatial => n :: p_out_channels p :: spatial
  | _, _ => skip
  end.

Definition shape_stack (ts : list (list Z)) (dim : Z) : list Z :=
  match ts with
  | [] => []
  | t :: _ => take (Z.to_nat dim) t ++ Z.of_nat (length ts) :: drop (Z.to_nat dim) t
  end.

Definition ShapeLib : BlockLibrary :=
  {| Tensor := list Z;
     shape := λ t, t;
     torch_empty := λ n, [n];
     block_forward := shape_block_forward;
     up_forward := shape_up_forward;
     interpolate := λ t size, take 2 t ++ size;
     torch_stack := shape_stack |}.

(** A planar network of four stages with two supervision heads. *)
Definition demo_spec : Spec :=
  {| spatial_dims := 2; in_channels := 1; cls_out_channels := 3; seg_out_channels := 2;
     kernel_size := [KInt 3; KInt 3; KInt 3; KInt 3];
     strides := [KSeq [1; 1]; KInt 2; KInt 2; KInt 2]%Z;
     output_paddings := [KInt 0; KInt 0; KInt 0];
     filters := None; dropout := None;
     norm_name := "INSTANCE"; act_name := "leakyrelu";
     deep_supr_num := 2; res_block := false; trans_bias := false;
     pool_type := "max"; pool_fmap := 2 |}.

Definition with_deep_supr_num (d : Z) (s : Spec) : Spec :=
  {| spatial_dims := spatial_dims s; in_channels := in_channels s;
     cls_out_channels := cls_out_channels s; seg_out_channels := seg_out_channels s;
     kernel_size := kernel_size s; strides := strides s;
     output_paddings := output_paddings s; filters := filters s; dropout := dropout s;
     norm_name := norm_name s; act_name := act_name s;
     deep_supr_num := d; res_block := res_block s; trans_bias := trans_bias s;
     pool_type := pool_type s; pool_fmap := pool_fmap s |}.

Definition with_output_paddings (ops : list KS) (s : Spec) : Spec :=
  {| spatial_dims := spatial_dims s; in_channels := in_channels s;
     cls_out_channels := cls_out_channels s; seg_out_channels := seg_out_channels s;
     kernel_size := kernel_size s; strides := strides s;
     output_paddings := ops; filters := filters s; dropout := dropout s;
     norm_name := norm_name s; act_name := act_name s;
     deep_supr_num := deep_supr_num s; res_block := res_block s; trans_bias := trans_bias s;
     pool_type := pool_type s; pool_fmap := pool_fmap s |}.

Definition demo_input : list Z := [1; 1; 32; 32]%Z.

(** ** The stated validity conditions *)

(** A kernel or stride entry is acceptable when it is a scalar or has
    exactly [sd] components. *)
Definition entry_ok (sd : Z) (k : KS) : Prop := is_int k = true ∨ ks_len k = sd.

(** Kernel and stride sequences of equal length, at least three, with
    acceptable entries. *)
Definition kernel_stride_valid (s : Spec) : Prop :=
  length (kernel_size s) = length (strides s) ∧
  3 ≤ length (kernel_size s) ∧
  Forall (entry_ok (spatial_dims s)) (kernel_size s) ∧
  Forall (entry_ok (spatial_dims s)) (strides s).

(** The blocks the two loops of [get_module_list] produce. *)
Definition down_blocks (s : Spec) (fs : list Z) : list Block :=
  (λ '(in_c, (out_c, (kernel, stride))),
     ConvBlock (conv_block s) (conv_params s in_c out_c kernel stride))
  <$> zip (slice_to_neg 2 fs)
          (zip (slice_1_to_neg1 fs)
               (zip (slice_1_to_neg1 (kernel_size s)) (slice_1_to_neg1 (strides s)))).

Definition up_blocks (s : Spec) (fs : list Z) : list Block :=
  (λ '(in_c, (out_c, (kernel, (stride, output_padding)))),
     ConvBlock UnetUpBlock (up_params s in_c out_c kernel stride output_padding (trans_bias s)))
  <$> zip (slice_to_neg 1 (slice_rev fs))
          (zip (slice_from_1 (slice_rev fs))
               (zip (slice_to_neg 1 (slice_rev (kernel_size s)))
                    (zip (slice_to_neg 1 (slice_rev (strides s)))
                         (slice_rev (output_paddings s))))).

(** [l[i]] is defined exactly for [-len(l) <= i < len(l)]. *)
Definition in_range {A} (l : list A) (i : Z) : Prop :=
  (- Z.of_nat (length l) ≤ i < Z.of_nat (length l))%Z.

(** A stage call that reads its arguments by index and then instantiates
    one block: unless its reads are in range ([C]) it raises
    [IndexError] and records nothing; otherwise it returns and records
    one block, which satisfies [P]. *)
Definition stage_of (C : Prop) (P : Block → Prop) (m : Ctor Block) : Prop :=
  ∀ built,
    (¬ C ∧ m built = (Raise IndexError, built)) ∨
    (C ∧ ∃ b, P b ∧ m built = (Ok b, built ++ [b])).

Definition is_conv (b : Block) : Prop :=
  match b with ConvBlock _ _ => True | _ => False end.

Definition is_out (outc : Z) (b : Block) : Prop :=
  match b with UnetOutBlock _ _ o _ => o = outc | _ => False end.

(** The heads [get_deep_supervision_heads] builds when every index it
    reads is in range. *)
Definition head_blocks (s : Spec) (fs : list Z) : list Block :=
  (λ i : nat, UnetOutBlock (spatial_dims s) (fs !!! S i) (seg_out_channels s) (dropout s))
  <$> seq 0 (Z.to_nat (deep_supr_num s)).

(** A chain whose downsample, upsample and bottleneck blocks are
    convolution blocks and whose heads are output blocks with [outc]
    output channels. *)
Fixpoint wf_node (outc : Z) (n : Node) : Prop :=
  match n with
  | Bottleneck b => is_conv b
  | SkipLayer _ downsample upsample next_layer super_head =>
      is_conv downsample ∧ is_conv upsample ∧
      match super_head with Some h => is_out outc h | None => True end ∧
      wf_node outc next_layer
  end.

(** The errors [check_kernel_stride] raises. *)
Definition kernel_stride_error (e : Error) : Prop :=
  match e with
  | ValueError KernelStrideLength | ValueError (KernelBlock _) | ValueError (StrideBlock _) => True
  | _ => False
  end.

(** [self.filters] once [check_filters] has returned. *)
Definition planned_filters (s : Spec) : list Z := take (length (strides s)) (init_filters s).

(** The record of instantiated blocks once the stage builder is through:
    input block, downsample blocks, bottleneck, upsample blocks, the two
    output blocks. *)
Definition stage_record (s : Spec) (ib bn cls seg : Block) : list Block :=
  ib :: down_blocks s (planned_filters s) ++ bn :: up_blocks s (planned_filters s) ++ [cls; seg].

(** What holds of a network the constructor returned, and of the blocks
    it instantiated on the way. *)
Definition constructed `{BlockLibrary} (s : Spec) (net : Net) (built : list Block) : Prop :=
  ¬ length (init_filters s) < length (strides s) ∧
  net_filters net = planned_filters s ∧
  is_conv (input_block net) ∧
  is_conv (bottleneck net) ∧
  downsamples net = down_blocks s (planned_filters s) ∧
  upsamples net = up_blocks s (planned_filters s) ∧
  is_out (seg_out_channels s) (seg_output_block net) ∧
  net_deep_supr_num net = deep_supr_num s ∧
  heads net = replicate (Z.to_nat (deep_supr_num s)) (torch_empty 1) ∧
  (deep_supr_num s < Z.of_nat (length (strides s)) - 1)%Z ∧
  deep_supervision_heads net = head_blocks s (planned_filters s) ∧
  check_kernel_stride s = Ok tt ∧
  create_skips 0 (input_block net :: downsamples net) (slice_rev (upsamples net))
               (bottleneck net) (deep_supervision_heads net) = Ok (skip_layers net) ∧
  built = stage_record s (input_block net) (bottleneck net)
                       (cls_output_block net) (seg_output_block net)
          ++ deep_supervision_heads net.

(** What holds when the constructor raised [e], by the place of the
    [raise]. *)
Definition raised (s : Spec) (e : Error) (built : list Block) : Prop :=
  match e with
  | ValueError FiltersLength =>
      length (init_filters s) < length (strides s) ∧ built = []
  | IndexError =>
      length (strides s) < 2 ∨ length (kernel_size s) = 0
  | ValueError DeepSuprNum =>
      (Z.of_nat (length (strides s)) - 1 ≤ deep_supr_num s)%Z ∧
      ∃ ib bn cls seg, built = stage_record s ib bn cls seg
  | ValueError (SkipLengths d u) =>
      d = S (length (down_blocks s (planned_filters s))) ∧
      u = length (up_blocks s (planned_filters s)) ∧ d ≠ u ∧
      check_kernel_stride s = Ok tt ∧
      (deep_supr_num s < Z.of_nat (length (strides s)) - 1)%Z
  | ValueError _ =>
      check_kernel_stride s = Raise e ∧
      (deep_supr_num s < Z.of_nat (length (strides s)) - 1)%Z ∧
      ∃ ib bn cls seg, built = stage_record s ib bn cls seg ++ head_blocks s (planned_filters s)
  | TypeError => False
  end.

(** The checks of the constructor, as the specification lists them:
    kernel and stride sequences valid, enough filters, the number of
    supervision heads in range. *)
Definition checks_pass (s : Spec) : Prop :=
  kernel_stride_valid s ∧
  length (strides s) ≤ length (init_filters s) ∧
  (0 < deep_supr_num s < Z.of_nat (length (strides s)) - 1)%Z.

(** A valid specification: the checks pass and there is one output
    padding per upsample stage. *)
Definition valid_spec (s : Spec) : Prop :=
  checks_pass s ∧ length (output_paddings s) = length (strides s) - 1.

(** The number of [DynUNetSkipLayer] nodes of a chain. *)
Fixpoint depth (n : Node) : nat :=
  match n with
  | Bottleneck _ => 0
  | SkipLayer _ _ _ next_layer _ => S (depth next_layer)
  end.

(** The [next_layer] of the innermost skip layer. *)
Fixpoint bottom_next (n : Node) : option Node :=
  match n with
  | Bottleneck _ => None
  | SkipLayer _ _ _ next_layer _ =>
      match next_layer with
      | Bottleneck _ => Some next_layer
      | SkipLayer _ _ _ _ _ => bottom_next next_layer
      end
  end.

Definition with_kernel_size (ks : list KS) (s : Spec) : Spec :=
  {| spatial_dims := spatial_dims s; in_channels := in_channels s;
     cls_out_channels := cls_out_channels s; seg_out_channels := seg_out_channels s;
     kernel_size := ks; strides := strides s;
     output_paddings := output_paddings s; filters := filters s; dropout := dropout s;
     norm_name := norm_name s; act_name := act_name s;
     deep_supr_num := deep_supr_num s; res_block := res_block s; trans_bias := trans_bias s;
     pool_type := pool_type s; pool_fmap := pool_fmap s |}.

Definition with_filters (fs : option (list Z)) (s : Spec) : Spec :=
  {| spatial_dims := spatial_dims s; in_channels := in_channels s;
     cls_out_channels := cls_out_channels s; seg_out_channels := seg_out_channels s;
     kernel_size := kernel_size s; strides := strides s;
     output_paddings := output_paddings s; filters := fs; dropout := dropout s;
     norm_name := norm_name s; act_name := act_name s;
     deep_supr_num := deep_supr_num s; res_block := res_block s; trans_bias := trans_bias s;
     pool_type := pool_type s; pool_fmap := pool_fmap s |}.

(** A volumetric specification of four stages with scalar entries. *)
Definition demo_spec_3d : Spec :=
  {| spatial_dims := 3; in_channels := 1; cls_out_channels := 3; seg_out_channels := 2;
     kernel_size := [KInt 3; KInt 3; KInt 3; KInt 3];
     strides := [KInt 1; KInt 2; KInt 2; KInt 2];
     output_paddings := [KInt 0; KInt 0; KInt 0];
     filters := None; dropout := None;
     norm_name := "INSTANCE"; act_name := "leakyrelu";
     deep_supr_num := 1; res_block := true; trans_bias := false;
     pool_type := "max"; pool_fmap := 2 |}.

(** ** Further views, for the properties beyond the claims *)

(** With [deep_supr_num] below the number of upsample stages: the error
    at which the constructor stops, if any, read off its arguments in
    the order [__init__] meets them. *)
Definition first_error_in_range (s : Spec) : option Error :=
  let n := length (strides s) in
  if decide (length (init_filters s) < n) then Some (ValueError FiltersLength)
  else if decide (n < 2 ∨ length (kernel_size s) = 0) then Some IndexError
  else match check_kernel_stride s with
       | Raise e => Some e
       | Ok _ =>
           if decide (length (output_paddings s) < n - 1)
           then Some (ValueError (SkipLengths (n - 1) (length (output_paddings s))))
           else None
       end.

(** The downsample and the upsample block of each skip layer, from the
    outermost inwards. *)
Fixpoint skip_blocks (n : Node) : list (Block * Block) :=
  match n with
  | Bottleneck _ => []
  | SkipLayer _ downsample upsample next_layer _ => (downsample, upsample) :: skip_blocks next_layer
  end.

(** The head [create_skips], called with [index], gives to the level at
    position [i]: none while the level's index is not positive, then the
    heads in list order. *)
Definition head_at (index : Z) (super_heads : list Block) (i : nat) : option Block :=
  if (0 <? index + Z.of_nat i)%Z then super_heads !! (i - Z.to_nat (1 - index)) else None.

(** ** The base classes of [monai/umei/__init__.py] *)

Module Umei.

(** The exceptions the two [forward] stubs can end in. *)
Inductive PyExc := NotImplementedError | PyTypeError.

(** The values that reach a [raise] there: an exception class or a
    boolean. *)
Inductive PyVal :=
| VExcClass (e : PyExc)
| VBool (b : bool).

(** Truth value: a class object is true. *)
Definition truthy (v : PyVal) : bool :=
  match v with VExcClass _ => true | VBool b => b end.

(** [not v] *)
Definition py_not (v : PyVal) : PyVal := VBool (negb (truthy v)).

(** [raise v]: the exception of the class given; a value that is not an
    exception makes [raise] itself fail with [TypeError] ("exceptions
    must derive from BaseException"). *)
Definition py_raise (v : PyVal) : PyExc :=
  match v with VExcClass e => e | VBool _ => PyTypeError end.

(** [UEncoderBase.forward]: [raise NotImplementedError]. *)
Definition UEncoderBase_forward {Img Args Out : Type} (img : Img) (args : Args) : PyExc + Out :=
  inl (py_raise (VExcClass NotImplementedError)).

(** [UDecoderBase.forward]: [raise not NotImplementedError]. *)
Definition UDecoderBase_forward {States Args Out : Type} (encoder_hidden_states : States)
    (args : Args) : PyExc + Out :=
  inl (py_raise (py_not (VExcClass NotImplementedError))).

End Umei.

(** ** Basic facts: the monad and Python indexing *)

Section StateErrFacts.
Context {S A B : Type}.
Implicit Types (m : StateErr S A) (f : A → StateErr S B).

Lemma bind_ok m f st a st1 :
  m st = (Ok a, st1) → (m ≫= f) st = f a st1.
Proof. intros Hm. unfold mbind, state_err_bind. by rewrite Hm. Qed.

Lemma bind_raise m f st e st1 :
  m st = (Raise e, st1) → (m ≫= f) st = (Raise e, st1).
Proof. intros Hm. unfold mbind, state_err_bind. by rewrite Hm. Qed.

Lemma bind_ok_inv m f st b st' :
  (m ≫= f) st = (Ok b, st') →
  ∃ a st1, m st = (Ok a, st1) ∧ f a st1 = (Ok b, st').
Proof.
  unfold mbind, state_err_bind. destruct (m st) as [[a|e] st1]; [eauto | discriminate].
Qed.

Lemma bind_raise_inv m f st e st' :
  (m ≫= f) st = (Raise e, st') →
  m st = (Raise e, st') ∨ ∃ a st1, m st = (Ok a, st1) ∧ f a st1 = (Raise e, st').
Proof.
  unfold mbind, state_err_bind. destruct (m st) as [[a|e0] st1]; [eauto | left; congruence].
Qed.
End StateErrFacts.

Lemma lift_ok_inv {S A} (r : result A) (st st' : S) a :
  lift r st = (Ok a, st') → r = Ok a ∧ st' = st.
Proof. unfold lift. by intros [= -> ->]. Qed.

Lemma py_index_ok {A} (l : list A) (i : nat) a :
  l !! i = Some a → py_index l (Z.of_nat i) = Ok a.
Proof.
  intros Hl. pose proof (lookup_lt_Some _ _ _ Hl) as Hlt. unfold py_index.
  destruct (Z.ltb_spec (Z.of_nat i) 0); [lia|].
  destruct (Z.leb_spec 0 (Z.of_nat i)); [|lia].
  destruct (Z.ltb_spec (Z.of_nat i) (Z.of_nat (length l))); [|lia].
  simpl. by rewrite Nat2Z.id, Hl.
Qed.

Lemma py_index_neg_ok {A} (l : list A) (k : nat) a :
  0 < k → l !! (length l - k) = Some a → k ≤ length l →
  py_index l (- Z.of_nat k) = Ok a.
Proof.
  intros Hk Hl Hle. unfold py_index.
  destruct (Z.ltb_spec (- Z.of_nat k) 0); [|lia].
  destruct (Z.leb_spec 0 (Z.of_nat (length l) + - Z.of_nat k)); [|lia].
  destruct (Z.ltb_spec (Z.of_nat (length l) + - Z.of_nat k) (Z.of_nat (length l))); [|lia].
  simpl. replace (Z.to_nat _) with (length l - k) by lia. by rewrite Hl.
Qed.

Lemma py_index_ok_inv {A} (l : list A) (i : Z) a :
  py_index l i = Ok a → l ≠ [].
Proof. intros H ->. unfold py_index in H. simpl in H. by destruct (i <? 0)%Z, i. Qed.

Lemma py_setitem_ok {A} (l : list A) (i : Z) v :
  (0 ≤ i < Z.of_nat (length l))%Z → py_setitem l i v = Ok (<[Z.to_nat i := v]> l).
Proof.
  intros Hi. unfold py_setitem.
  destruct (Z.ltb_spec i 0); [lia|].
  destruct (Z.leb_spec 0 i); [|lia].
  by destruct (Z.ltb_spec i (Z.of_nat (length l))); [|lia].
Qed.

(** ** Planner: derived filters *)

Lemma length_derive_filters sd n : length (derive_filters sd n) = n.
Proof. unfold derive_filters. by rewrite length_fmap, length_seq. Qed.

Lemma lookup_derive_filters sd n i :
  i < n →
  derive_filters sd n !! i
  = Some (Z.min (2 ^ (5 + Z.of_nat i)) (if decide (sd = 3%Z) then 320 else 512)).
Proof.
  intros Hi. unfold derive_filters.
  by rewrite list_lookup_fmap, lookup_seq_lt.
Qed.

Lemma check_filters_derived s :
  filters s = None → check_filters s (init_filters s) = Ok (init_filters s).
Proof.
  intros Hf. unfold check_filters, init_filters. rewrite Hf, length_derive_filters.
  destruct (decide _); [lia|].
  by rewrite take_ge by (rewrite length_derive_filters; lia).
Qed.

(** ** Stage builder: what each call returns and records *)

Lemma ctor_map_pure {A B} (f : A → Ctor B) (g : A → B) (rec : B → list Block) l built :
  (∀ a st, a ∈ l → f a st = (Ok (g a), st ++ rec (g a))) →
  ctor_map f l built = (Ok (g <$> l), built ++ concat (rec <$> (g <$> l))).
Proof.
  revert built. induction l as [|a l IH]; intros built Hf; simpl.
  - unfold mret, state_err_ret. by rewrite app_nil_r.
  - erewrite bind_ok by (apply Hf; left). cbv beta.
    erewrite bind_ok by (apply IH; intros; apply Hf; by right).
    unfold mret, state_err_ret. by rewrite <- !app_assoc.
Qed.

Lemma concat_singletons {A} (l : list A) : concat ((λ b, [b]) <$> l) = l.
Proof. induction l as [|a l IH]; [done|]. cbn. by rewrite IH. Qed.

Lemma ctor_map_instantiate {A} (g : A → Block) (f : A → Ctor Block) l built :
  (∀ a, f a = instantiate (g a)) →
  ctor_map f l built = (Ok (g <$> l), built ++ (g <$> l)).
Proof.
  intros Hf. rewrite (ctor_map_pure f g (λ b, [b])).
  - by rewrite concat_singletons.
  - intros a st _. by rewrite Hf.
Qed.

Lemma get_downsamples_eq s fs built :
  get_downsamples s fs built = (Ok (down_blocks s fs), built ++ down_blocks s fs).
Proof.
  unfold get_downsamples, get_module_list, down_blocks.
  apply ctor_map_instantiate. by intros (in_c & out_c & kernel & stride).
Qed.

Lemma get_upsamples_eq s fs built :
  get_upsamples s fs built = (Ok (up_blocks s fs), built ++ up_blocks s fs).
Proof.
  unfold get_upsamples, get_module_list, up_blocks.
  apply ctor_map_instantiate. by intros (in_c & out_c & kernel & stride & op).
Qed.

Lemma length_slice_to_neg {A} k (l : list A) : length (slice_to_neg k l) = length l - k.
Proof. unfold slice_to_neg. rewrite length_take. lia. Qed.

Lemma length_slice_1_to_neg1 {A} (l : list A) : length (slice_1_to_neg1 l) = length l - 2.
Proof. unfold slice_1_to_neg1. rewrite length_drop, length_take. lia. Qed.

Lemma length_slice_from_1 {A} (l : list A) : length (slice_from_1 l) = length l - 1.
Proof. unfold slice_from_1. by rewrite length_drop. Qed.

Lemma length_slice_rev {A} (l : list A) : length (slice_rev l) = length l.
Proof. apply length_reverse. Qed.

(** [zip] stops at the shortest argument: the number of downsample
    blocks in terms of the three sequences read. *)
Lemma length_down_blocks s fs :
  length (down_blocks s fs)
  = Nat.min (length fs) (Nat.min (length (kernel_size s)) (length (strides s))) - 2.
Proof.
  unfold down_blocks. rewrite length_fmap, !length_zip_with.
  rewrite length_slice_to_neg, !length_slice_1_to_neg1. lia.
Qed.

Lemma length_up_blocks s fs :
  length (up_blocks s fs)
  = Nat.min (Nat.min (length fs) (Nat.min (length (kernel_size s)) (length (strides s))) - 1)
            (length (output_paddings s)).
Proof.
  unfold up_blocks. rewrite length_fmap, !length_zip_with.
  rewrite !length_slice_to_neg, length_slice_from_1, !length_slice_rev. lia.
Qed.

Lemma instantiate_eq b built : instantiate b built = (Ok b, built ++ [b]).
Proof. done. Qed.

Lemma py_index_cases {A} (l : list A) i :
  (in_range l i ∧ ∃ a, py_index l i = Ok a) ∨ (¬ in_range l i ∧ py_index l i = Raise IndexError).
Proof.
  unfold in_range, py_index.
  destruct (Z.ltb_spec i 0);
    (match goal with |- context [(0 <=? ?j)%Z] => destruct (Z.leb_spec 0 j) end);
    (match goal with |- context [(?j <? Z.of_nat ?n)%Z] => destruct (Z.ltb_spec j (Z.of_nat n)) end);
    simpl; try (right; split; [lia|done]).
  - left. split; [lia|].
    destruct (lookup_lt_is_Some_2 l (Z.to_nat (Z.of_nat (length l) + i))) as [a ->]; [lia|eauto].
  - left. split; [lia|].
    destruct (lookup_lt_is_Some_2 l (Z.to_nat i)) as [a ->]; [lia|eauto].
Qed.

Lemma lift_py_index_stage {A} (l : list A) i (k : A → Ctor Block) C P :
  (∀ a, stage_of C P (k a)) → stage_of (in_range l i ∧ C) P (lift (py_index l i) ≫= k).
Proof.
  intros Hk built. destruct (py_index_cases l i) as [[Hin [a Ha]]|[Hout Hr]].
  - erewrite bind_ok by (unfold lift; by rewrite Ha).
    destruct (Hk a built) as [[HC ->]|[HC Hb]]; [left|right]; tauto.
  - left. erewrite bind_raise by (unfold lift; by rewrite Hr). tauto.
Qed.

Lemma instantiate_stage (P : Block → Prop) b : P b → stage_of True P (instantiate b).
Proof. intros HP built. right. split; [done|]. by exists b. Qed.

Lemma get_input_block_stage s fs :
  stage_of (in_range fs 0 ∧ in_range (kernel_size s) 0 ∧ in_range (strides s) 0 ∧ True)
           is_conv (get_input_block s fs).
Proof.
  unfold get_input_block.
  repeat (apply lift_py_index_stage; intros ?). by apply instantiate_stage.
Qed.

Lemma get_bottleneck_stage s fs :
  stage_of (in_range fs (-2) ∧ in_range fs (-1) ∧ in_range (kernel_size s) (-1) ∧
            in_range (strides s) (-1) ∧ True)
           is_conv (get_bottleneck s fs).
Proof.
  unfold get_bottleneck.
  repeat (apply lift_py_index_stage; intros ?). by apply instantiate_stage.
Qed.

Lemma get_cls_output_block_stage s fs idx :
  stage_of (in_range fs idx ∧ True) (λ _, True) (get_cls_output_block s fs idx).
Proof.
  unfold get_cls_output_block.
  repeat (apply lift_py_index_stage; intros ?). by apply instantiate_stage.
Qed.

Lemma get_seg_output_block_stage s fs idx :
  stage_of (in_range fs idx ∧ True) (is_out (seg_out_channels s)) (get_seg_output_block s fs idx).
Proof.
  unfold get_seg_output_block.
  repeat (apply lift_py_index_stage; intros ?). by apply instantiate_stage.
Qed.

Lemma get_seg_output_block_ok s fs (i : nat) built :
  i < length fs →
  get_seg_output_block s fs (Z.of_nat i) built
  = (Ok (UnetOutBlock (spatial_dims s) (fs !!! i) (seg_out_channels s) (dropout s)),
     built ++ [UnetOutBlock (spatial_dims s) (fs !!! i) (seg_out_channels s) (dropout s)]).
Proof.
  intros Hi. unfold get_seg_output_block.
  erewrite bind_ok; [done|]. unfold lift.
  by rewrite (py_index_ok fs i (fs !!! i)) by (by apply list_lookup_lookup_total_lt).
Qed.

Lemma get_deep_supervision_heads_raise s fs built :
  (Z.of_nat (length (strides s)) - 1 ≤ deep_supr_num s)%Z →
  get_deep_supervision_heads s fs built = (Raise (ValueError DeepSuprNum), built).
Proof.
  intros Hd. unfold get_deep_supervision_heads.
  by destruct (Z.geb_spec (deep_supr_num s) (Z.of_nat (length (strides s)) - 1)); [|lia].
Qed.

Lemma get_deep_supervision_heads_ok s fs built :
  (deep_supr_num s < Z.of_nat (length (strides s)) - 1)%Z →
  length fs = length (strides s) →
  get_deep_supervision_heads s fs built = (Ok (head_blocks s fs), built ++ head_blocks s fs).
Proof.
  intros Hd Hlen. unfold get_deep_supervision_heads, head_blocks.
  destruct (Z.geb_spec (deep_supr_num s) (Z.of_nat (length (strides s)) - 1)); [lia|].
  erewrite (ctor_map_pure _ _ (λ b, [b])).
  - by rewrite concat_singletons.
  - intros i st [_ Hi]%elem_of_seq. simpl in Hi.
    replace (Z.of_nat i + 1)%Z with (Z.of_nat (S i)) by lia.
    apply get_seg_output_block_ok. lia.
Qed.

Lemma length_head_blocks s fs : length (head_blocks s fs) = Z.to_nat (deep_supr_num s).
Proof. unfold head_blocks. by rewrite length_fmap, length_seq. Qed.

Lemma head_blocks_out s fs : Forall (is_out (seg_out_channels s)) (head_blocks s fs).
Proof. unfold head_blocks. apply Forall_fmap, Forall_forall. by intros. Qed.

Lemma down_blocks_conv s fs : Forall is_conv (down_blocks s fs).
Proof.
  unfold down_blocks. apply Forall_fmap, Forall_forall.
  by intros (in_c & out_c & kernel & stride) _.
Qed.

Lemma up_blocks_conv s fs : Forall is_conv (up_blocks s fs).
Proof.
  unfold up_blocks. apply Forall_fmap, Forall_forall.
  by intros (in_c & out_c & kernel & stride & op) _.
Qed.

(** ** Planner: kernel and stride validation *)

Lemma entry_check_ok sd k :
  negb (is_int k) && negb (bool_decide (ks_len k = sd)) = false ↔ entry_ok sd k.
Proof.
  unfold entry_ok. destruct (is_int k); simpl; [tauto|].
  rewrite negb_false_iff, bool_decide_eq_true. split; [tauto|by intros [|]].
Qed.

Lemma check_entries_ok_iff sd strides kernels idx :
  idx + length kernels = length strides →
  check_entries sd strides idx kernels = Ok tt
  ↔ Forall (entry_ok sd) kernels ∧ Forall (entry_ok sd) (drop idx strides).
Proof.
  revert idx. induction kernels as [|kernel rest IH]; intros idx Hlen; simpl in *.
  - rewrite drop_ge by lia. split; [by split|done].
  - destruct (lookup_lt_is_Some_2 strides idx) as [stride Hs]; [lia|].
    rewrite (py_index_ok _ _ _ Hs). cbn.
    rewrite (drop_S _ _ _ Hs), !Forall_cons, <- !entry_check_ok.
    destruct (negb (is_int kernel) && _) eqn:Hk; cbn; [split; [done|by intros [[] _]]|].
    destruct (negb (is_int stride) && _) eqn:Hst; cbn; [split; [done|by intros [_ []]]|].
    rewrite IH by lia. tauto.
Qed.

Lemma check_entries_error sd strides kernels idx e :
  idx + length kernels ≤ length strides →
  check_entries sd strides idx kernels = Raise e → kernel_stride_error e.
Proof.
  revert idx. induction kernels as [|kernel rest IH]; intros idx Hlen; simpl in *; [done|].
  destruct (lookup_lt_is_Some_2 strides idx) as [stride Hs]; [lia|].
  rewrite (py_index_ok _ _ _ Hs). cbn.
  destruct (negb (is_int kernel) && _); cbn; [by intros [= <-]|].
  destruct (negb (is_int stride) && _); cbn; [by intros [= <-]|].
  apply IH. lia.
Qed.

Lemma check_kernel_stride_iff s : check_kernel_stride s = Ok tt ↔ kernel_stride_valid s.
Proof.
  unfold check_kernel_stride, kernel_stride_valid.
  destruct (decide (length (kernel_size s) = length (strides s))) as [Heq|Hne].
  - rewrite (bool_decide_eq_true_2 _ Heq). simpl.
    destruct (decide (length (kernel_size s) < 3)) as [Hlt|Hge].
    + rewrite (bool_decide_eq_true_2 _ Hlt). split; [done|lia].
    + rewrite (bool_decide_eq_false_2 _ Hge).
      rewrite check_entries_ok_iff by (simpl; lia). rewrite drop_0.
      split; [intros []; repeat split; [done|lia|done|done] | tauto].
  - rewrite (bool_decide_eq_false_2 _ Hne). simpl. split; [done|tauto].
Qed.

Lemma check_kernel_stride_error s e :
  check_kernel_stride s = Raise e → kernel_stride_error e.
Proof.
  unfold check_kernel_stride.
  destruct (decide (length (kernel_size s) = length (strides s))) as [Heq|Hne].
  - rewrite (bool_decide_eq_true_2 _ Heq). simpl.
    destruct (bool_decide _); [by intros [= <-]|].
    apply check_entries_error. simpl. lia.
  - rewrite (bool_decide_eq_false_2 _ Hne). simpl. by intros [= <-].
Qed.

(** ** Skip-layer composer *)

Lemma create_skips_raise index downs ups b sh :
  length downs ≠ length ups →
  create_skips index downs ups b sh = Raise (ValueError (SkipLengths (length downs) (length ups))).
Proof.
  intros Hne. destruct downs; simpl; by rewrite bool_decide_eq_false_2.
Qed.

Lemma create_skips_nil_inv index ups b sh n :
  create_skips index [] ups b sh = Ok n → ups = [] ∧ n = Bottleneck b.
Proof.
  simpl. destruct ups; simpl; [by intros [= <-]|done].
Qed.

Lemma create_skips_cons_inv index d downs ups b sh n :
  create_skips index (d :: downs) ups b sh = Ok n →
  ∃ u ups' next,
    ups = u :: ups' ∧
    create_skips (1 + index) downs ups' b (if (0 <? index)%Z then drop 1 sh else sh) = Ok next ∧
    n = SkipLayer index d u next (if (0 <? index)%Z then head sh else None).
Proof.
  simpl. destruct (bool_decide _) eqn:Hlen; simpl; [|done].
  destruct ups as [|u ups']; [by apply bool_decide_eq_true in Hlen|].
  assert (Hhd : (if (0 <? index)%Z && bool_decide (0 < length sh)
                 then (head sh, drop 1 sh) else (None, sh))
                = (if (0 <? index)%Z then head sh else None,
                   if (0 <? index)%Z then drop 1 sh else sh)).
  { destruct (0 <? index)%Z; [|done]. by destruct sh. }
  rewrite Hhd. unfold slice_from_1. simpl. rewrite drop_0.
  destruct (create_skips _ downs ups' b _) as [next|e] eqn:Hnext; cbn; [|done].
  intros [= <-]. by exists u, ups', next.
Qed.

Lemma create_skips_ok index downs ups b sh :
  length downs = length ups → ∃ n, create_skips index downs ups b sh = Ok n.
Proof.
  revert index ups sh. induction downs as [|d downs IH]; intros index ups sh Hlen.
  - destruct ups; [|done]. by eexists.
  - destruct ups as [|u ups]; [done|]. simpl in Hlen.
    simpl. rewrite bool_decide_eq_true_2 by (simpl; lia). simpl.
    unfold slice_from_1. simpl. rewrite drop_0.
    destruct (_ && _);
      (edestruct (IH (1 + index)%Z ups) as [next ->]; [lia|]; cbn; by eexists).
Qed.

Lemma create_skips_ok_length index downs ups b sh n :
  create_skips index downs ups b sh = Ok n → length downs = length ups.
Proof.
  intros Hn. destruct (decide (length downs = length ups)) as [|Hne]; [done|].
  by rewrite (create_skips_raise _ _ _ _ _ Hne) in Hn.
Qed.

Lemma create_skips_leaf index downs ups b sh n :
  create_skips index downs ups b sh = Ok n → leaf n = b.
Proof.
  revert index ups sh n. induction downs as [|d downs IH]; intros index ups sh n Hn.
  - by apply create_skips_nil_inv in Hn as [_ ->].
  - apply create_skips_cons_inv in Hn as (u & ups' & next & -> & Hnext & ->). simpl. eauto.
Qed.

Lemma create_skips_wf outc index downs ups b sh n :
  Forall is_conv downs → Forall is_conv ups → is_conv b → Forall (is_out outc) sh →
  create_skips index downs ups b sh = Ok n → wf_node outc n.
Proof.
  revert index ups sh n. induction downs as [|d downs IH]; intros index ups sh n Hd Hu Hb Hsh Hn.
  - by apply create_skips_nil_inv in Hn as [_ ->].
  - apply create_skips_cons_inv in Hn as (u & ups' & next & -> & Hnext & ->).
    apply Forall_cons in Hd as [Hd0 Hd], Hu as [Hu0 Hu]. simpl.
    repeat split; [done|done| |].
    + destruct (0 <? index)%Z; [|done]. destruct sh as [|h sh]; [done|].
      by apply Forall_cons in Hsh as [? _].
    + eapply IH; [done|done|done| |exact Hnext].
      destruct (0 <? index)%Z; [|done]. by apply Forall_drop.
Qed.

(** Below the outermost level the heads are handed out one per level,
    in list order, until they run out. *)
Lemma create_skips_levels_pos index downs ups b sh n :
  (0 < index)%Z →
  create_skips index downs ups b sh = Ok n →
  levels n = (λ i : nat, ((index + Z.of_nat i)%Z, sh !! i)) <$> seq 0 (length downs).
Proof.
  revert index ups sh n. induction downs as [|d downs IH]; intros index ups sh n Hpos Hn.
  - by apply create_skips_nil_inv in Hn as [_ ->].
  - apply create_skips_cons_inv in Hn as (u & ups' & next & -> & Hnext & ->).
    destruct (Z.ltb_spec 0 index); [|lia].
    simpl. rewrite (IH (1 + index)%Z _ _ _ ltac:(lia) Hnext).
    f_equal; [f_equal; [lia | by destruct sh]|].
    rewrite <- fmap_S_seq, <- list_fmap_compose.
    apply list_fmap_ext. intros _ i _. simpl. f_equal; [lia|apply lookup_drop].
Qed.

(** The chain [__init__] composes: level 0 has no head; level [1 + i]
    has the head [sh[i]] when there is one. *)
Lemma create_skips_levels_top d downs ups b sh n :
  create_skips 0 (d :: downs) ups b sh = Ok n →
  levels n = (0%Z, None) :: ((λ i : nat, ((1 + Z.of_nat i)%Z, sh !! i)) <$> seq 0 (length downs)).
Proof.
  intros Hn. apply create_skips_cons_inv in Hn as (u & ups' & next & -> & Hnext & ->).
  simpl in *. by rewrite (create_skips_levels_pos 1%Z _ _ _ _ _ ltac:(lia) Hnext).
Qed.

(** ** The constructor, outcome by outcome *)

Lemma check_filters_cases s :
  (length (init_filters s) < length (strides s) ∧
   check_filters s (init_filters s) = Raise (ValueError FiltersLength)) ∨
  (¬ length (init_filters s) < length (strides s) ∧
   length (planned_filters s) = length (strides s) ∧
   check_filters s (init_filters s) = Ok (planned_filters s)).
Proof.
  unfold check_filters, planned_filters. destruct (decide _); [by left|right].
  rewrite length_take. repeat split; [done|lia].
Qed.

Lemma create_skips_cases index downs ups b sh :
  (length downs = length ups ∧ ∃ n, create_skips index downs ups b sh = Ok n) ∨
  (length downs ≠ length ups ∧
   create_skips index downs ups b sh
   = Raise (ValueError (SkipLengths (length downs) (length ups)))).
Proof.
  destruct (decide (length downs = length ups)) as [Heq|Hne].
  - left. split; [done|]. by apply create_skips_ok.
  - right. split; [done|]. by apply create_skips_raise.
Qed.

Ltac stage_step H :=
  let built := match goal with |- context [(_ ≫= _) ?b] => b end in
  destruct (H built) as [[?Hc ?Hr]|[?Hc (?b & ?Hb & ?Hr)]];
  [ erewrite bind_raise by eassumption
  | erewrite bind_ok by eassumption; cbv beta ].

Theorem construct_outcome `{BlockLibrary} (s : Spec) :
  match new_DynUNet s with
  | (Ok net, built) => constructed s net built
  | (Raise e, built) => raised s e built
  end.
Proof.
  unfold new_DynUNet, construct.
  destruct (check_filters_cases s) as [[Hlt Hcf]|(Hge & Hlen & Hcf)].
  { erewrite bind_raise by (unfold lift; by rewrite Hcf). by split. }
  erewrite bind_ok by (unfold lift; by rewrite Hcf). cbv beta.
  set (fs := planned_filters s) in *.
  stage_step (get_input_block_stage s fs).
  { unfold in_range in *. simpl. lia. }
  erewrite bind_ok by apply get_downsamples_eq. cbv beta.
  stage_step (get_bottleneck_stage s fs).
  { unfold in_range in *. simpl. lia. }
  erewrite bind_ok by apply get_upsamples_eq. cbv beta.
  stage_step (get_cls_output_block_stage s fs (-1)%Z).
  { unfold in_range in *. simpl. lia. }
  stage_step (get_seg_output_block_stage s fs 0%Z).
  { unfold in_range in *. simpl. lia. }
  rename b into ib, b0 into bn, b1 into cls, b2 into seg.
  assert (Hrec : ((((([] ++ [ib]) ++ down_blocks s fs) ++ [bn]) ++ up_blocks s fs) ++ [cls])
                 ++ [seg] = stage_record s ib bn cls seg).
  { unfold stage_record. simpl. by rewrite <- !app_assoc. }
  rewrite Hrec.
  destruct (Z.le_gt_cases (Z.of_nat (length (strides s)) - 1) (deep_supr_num s)) as [Hbig|Hsmall].
  { erewrite bind_raise by (by apply get_deep_supervision_heads_raise).
    split; [done|]. by exists ib, bn, cls, seg. }
  erewrite bind_ok by (apply get_deep_supervision_heads_ok; [lia|done]). cbv beta.
  destruct (check_kernel_stride s) as [[]|e] eqn:Hcks.
  2: { erewrite bind_raise by reflexivity.
       pose proof (check_kernel_stride_error _ _ Hcks) as He.
       destruct e as [[]| |]; try done; (split; [done|]; split; [lia|]; by exists ib, bn, cls, seg). }
  erewrite bind_ok by reflexivity. cbv beta.
  destruct (create_skips_cases 0 (ib :: down_blocks s fs) (slice_rev (up_blocks s fs)) bn
              (head_blocks s fs)) as [[Heq [n Hn]]|[Hne Hskip]].
  2: { erewrite bind_raise by (unfold lift; by rewrite Hskip).
       simpl in *. rewrite length_slice_rev in *. done. }
  erewrite bind_ok by (unfold lift; by rewrite Hn). cbv beta.
  unfold mret, state_err_ret, constructed. simpl.
  repeat split; try done; lia.
Qed.

Lemma construct_inv `{BlockLibrary} s net built :
  new_DynUNet s = (Ok net, built) → constructed s net built.
Proof. intros Hn. pose proof (construct_outcome s) as Ho. by rewrite Hn in Ho. Qed.

Lemma construct_raise_inv `{BlockLibrary} s e built :
  new_DynUNet s = (Raise e, built) → raised s e built.
Proof. intros Hn. pose proof (construct_outcome s) as Ho. by rewrite Hn in Ho. Qed.

Lemma length_planned_filters s :
  length (strides s) ≤ length (init_filters s) →
  length (planned_filters s) = length (strides s).
Proof. intros Hle. unfold planned_filters. rewrite length_take. lia. Qed.

(** The constructor returns as soon as the kernel and stride sequences
    are valid, the filters suffice, the number of heads is below the
    number of upsample stages and the output paddings suffice. *)
Lemma construct_ok `{BlockLibrary} s :
  kernel_stride_valid s →
  length (strides s) ≤ length (init_filters s) →
  (deep_supr_num s < Z.of_nat (length (strides s)) - 1)%Z →
  length (strides s) - 1 ≤ length (output_paddings s) →
  ∃ net built, new_DynUNet s = (Ok net, built) ∧ constructed s net built.
Proof.
  intros Hks Hfs Hd Hop.
  pose proof (construct_outcome s) as Ho.
  destruct (new_DynUNet s) as [[net|e] built]; [by exists net, built|exfalso].
  pose proof (length_planned_filters s Hfs) as Hlen.
  pose proof (length_down_blocks s (planned_filters s)) as Hdown.
  pose proof (length_up_blocks s (planned_filters s)) as Hup.
  pose proof Hks as (Hk1 & Hk2 & _).
  apply check_kernel_stride_iff in Hks.
  destruct e as [[]| |]; simpl in Ho;
    try (destruct Ho as [Ho _]; congruence); try done; lia.
Qed.

Lemma depth_levels n : depth n = length (levels n).
Proof. induction n; simpl; congruence. Qed.

Lemma bottom_next_leaf n :
  is_skip_layer n = true → bottom_next n = Some (Bottleneck (leaf n)).
Proof.
  induction n as [b|index d u next IH sh]; [done|]. intros _. simpl.
  destruct next; [done|]. by apply IH.
Qed.

Lemma constructed_depth `{BlockLibrary} s net built :
  constructed s net built →
  length (strides s) = length (kernel_size s) ∧ 3 ≤ length (strides s) ∧
  length (downsamples net) = length (strides s) - 2 ∧
  length (upsamples net) = length (strides s) - 1 ∧
  depth (skip_layers net) = length (strides s) - 1 ∧
  is_skip_layer (skip_layers net) = true ∧
  leaf (skip_layers net) = bottleneck net.
Proof.
  intros (Hfs & _ & _ & _ & Hdown & Hup & _ & _ & _ & _ & _ & Hks & Hskip & _).
  apply check_kernel_stride_iff in Hks as (Hk1 & Hk2 & _).
  pose proof (length_planned_filters s ltac:(lia)) as Hlen.
  pose proof (create_skips_ok_length _ _ _ _ _ _ Hskip) as Heq.
  pose proof (create_skips_leaf _ _ _ _ _ _ Hskip) as Hleaf.
  pose proof (create_skips_levels_top _ _ _ _ _ _ Hskip) as Hlev.
  rewrite depth_levels, Hlev. simpl. rewrite length_fmap, length_seq.
  simpl in Heq. rewrite length_slice_rev in Heq.
  rewrite Hdown, length_down_blocks in *. rewrite Hup in *.
  repeat split; try lia; [|done].
  destruct (skip_layers net); [done|done].
Qed.

(** ** Structure of a constructed network *)

Ltac solve_checks :=
  repeat match goal with
         | |- _ ∧ _ => split
         | |- Forall _ _ => constructor
         | |- entry_ok _ _ => first [left; reflexivity | right; reflexivity]
         | |- _ => first [simpl; lia | vm_compute; first [lia | reflexivity]]
         end.

(** C1. For every valid specification the constructor returns a network
    with [len(strides) - 2] downsample blocks and [len(strides) - 1]
    upsample blocks, whose skip-layer chain has [len(strides) - 1]
    [DynUNetSkipLayer] nodes, the innermost of which has the bottleneck
    block as its [next_layer]. *)
Theorem valid_spec_structure `{BlockLibrary} (s : Spec) :
  valid_spec s →
  ∃ net built,
    new_DynUNet s = (Ok net, built) ∧
    length (downsamples net) = length (strides s) - 2 ∧
    length (upsamples net) = length (strides s) - 1 ∧
    depth (skip_layers net) = length (strides s) - 1 ∧
    bottom_next (skip_layers net) = Some (Bottleneck (bottleneck net)).
Proof.
  intros [(Hks & Hfs & Hd) Hop].
  destruct (construct_ok s Hks Hfs ltac:(lia) ltac:(lia)) as (net & built & Hnew & Hc).
  exists net, built. split; [done|].
  destruct (constructed_depth _ _ _ Hc) as (_ & _ & Hdown & Hup & Hdepth & Hskip & Hleaf).
  repeat split; [done|done|done|].
  by rewrite (bottom_next_leaf _ Hskip), Hleaf.
Qed.

Lemma valid_spec_structure_witness :
  valid_spec demo_spec ∧
  ∃ net built,
    @new_DynUNet ShapeLib demo_spec = (Ok net, built) ∧
    length (downsamples net) = 2 ∧
    length (upsamples net) = 3 ∧
    depth (skip_layers net) = 3 ∧
    bottom_next (skip_layers net) = Some (Bottleneck (bottleneck net)).
Proof.
  assert (Hv : valid_spec demo_spec). { unfold valid_spec, checks_pass, kernel_stride_valid; solve_checks. }
  split; [exact Hv|]. exact (@valid_spec_structure ShapeLib demo_spec Hv).
Defined.

(** ** Order of the checks *)

(** C3, the claim refuted: with three heads asked of a network with
    three upsample stages the range check raises after nine blocks have
    been instantiated; with a three-component kernel in a planar network
    the kernel check raises after all eleven have. *)
Lemma checks_after_blocks_counterexample :
  (∃ built, @new_DynUNet ShapeLib (with_deep_supr_num 3 demo_spec)
            = (Raise (ValueError DeepSuprNum), built) ∧ length built = 9) ∧
  (∃ built, @new_DynUNet ShapeLib
              (with_kernel_size [KInt 3; KSeq [3; 3; 3]; KInt 3; KInt 3]%Z demo_spec)
            = (Raise (ValueError (KernelBlock 1)), built) ∧ length built = 11).
Proof. split; eexists; split; vm_compute; reflexivity. Qed.

(** C3, amended. Only the filter check precedes the stage builder: when
    it fails nothing has been instantiated.  The range check on
    [deep_supr_num] raises once the input, downsample, bottleneck,
    upsample and output blocks exist, the kernel and stride check once
    the supervision heads exist as well.  A constructor that raised
    returned no network. *)
Theorem check_order `{BlockLibrary} (s : Spec) :
  (length (init_filters s) < length (strides s) →
   new_DynUNet s = (Raise (ValueError FiltersLength), [])) ∧
  (∀ built, new_DynUNet s = (Raise (ValueError FiltersLength), built) → built = []) ∧
  (∀ built, new_DynUNet s = (Raise (ValueError DeepSuprNum), built) →
     ∃ ib bn cls seg, built = stage_record s ib bn cls seg) ∧
  (∀ e built, kernel_stride_error e → new_DynUNet s = (Raise e, built) →
     ∃ ib bn cls seg,
       built = stage_record s ib bn cls seg ++ head_blocks s (planned_filters s)) ∧
  (∀ e built, new_DynUNet s = (Raise e, built) → ∀ net, (new_DynUNet s).1 ≠ Ok net).
Proof.
  repeat split.
  - intros Hlt. unfold new_DynUNet, construct.
    destruct (check_filters_cases s) as [[_ Hcf]|(Hge & _)]; [|done].
    erewrite bind_raise; [done|]. unfold lift. by rewrite Hcf.
  - intros built Hr. by apply construct_raise_inv in Hr as [_ ->].
  - intros built Hr. by apply construct_raise_inv in Hr as [_ ?].
  - intros e built He Hr. apply construct_raise_inv in Hr.
    destruct e as [[]| |]; try done; by destruct Hr as (_ & _ & ?).
  - intros e built Hr net. by rewrite Hr.
Qed.

(** ** The range of [deep_supr_num] *)

(** What the range check does: at or above the number of upsample
    stages the constructor fails, and it raises the range error unless
    an earlier step raised.  The list repetition that allocates the head
    buffer just before the check is taken to succeed here. *)
Lemma deep_supr_num_upper_bound `{BlockLibrary} (s : Spec) :
  (Z.of_nat (length (strides s)) - 1 ≤ deep_supr_num s)%Z →
  ∃ e built, new_DynUNet s = (Raise e, built) ∧
             (e = ValueError FiltersLength ∨ e = IndexError ∨ e = ValueError DeepSuprNum).
Proof.
  intros Hd. pose proof (construct_outcome s) as Ho.
  destruct (new_DynUNet s) as [[net|e] built].
  - destruct Ho as (_ & _ & _ & _ & _ & _ & _ & _ & _ & Hlt & _). lia.
  - exists e, built. split; [done|].
    destruct e as [[]| |]; simpl in Ho; try tauto; lia.
Qed.

(** C4, the code at the failing inputs: with [deep_supr_num <= 0] and
    everything else in order the constructor returns a network, one
    without supervision heads and with an empty head buffer. *)
Theorem nonpositive_deep_supr_num_accepted `{BlockLibrary} (s : Spec) :
  kernel_stride_valid s →
  length (strides s) ≤ length (init_filters s) →
  length (strides s) - 1 ≤ length (output_paddings s) →
  (deep_supr_num s ≤ 0)%Z →
  ∃ net built,
    new_DynUNet s = (Ok net, built) ∧
    heads net = [] ∧ deep_supervision_heads net = [] ∧
    Forall (λ l, l.2 = None) (levels (skip_layers net)).
Proof.
  intros Hks Hfs Hop Hd. pose proof Hks as (Hk1 & Hk2 & _).
  destruct (construct_ok s Hks Hfs ltac:(lia) Hop) as (net & built & Hnew & Hc).
  exists net, built. split; [done|].
  destruct Hc as (_ & _ & _ & _ & _ & _ & _ & _ & Hheads & _ & Hdsh & _ & Hskip & _).
  assert (Hz : Z.to_nat (deep_supr_num s) = 0) by lia.
  unfold head_blocks in Hdsh. rewrite Hz in *. simpl in Hdsh, Hheads.
  repeat split; [done|done|].
  rewrite Hdsh in Hskip. rewrite (create_skips_levels_top _ _ _ _ _ _ Hskip).
  constructor; [done|]. apply Forall_fmap, Forall_forall. by intros i _.
Qed.

Lemma nonpositive_deep_supr_num_accepted_witness :
  ∃ net built,
    @new_DynUNet ShapeLib (with_deep_supr_num 0 demo_spec) = (Ok net, built) ∧
    heads net = [] ∧ deep_supervision_heads net = [] ∧
    Forall (λ l, l.2 = None) (levels (skip_layers net)).
Proof.
  apply (@nonpositive_deep_supr_num_accepted ShapeLib (with_deep_supr_num 0 demo_spec));
    unfold kernel_stride_valid; solve_checks.
Defined.

(** ** Reachability of the length check of [create_skips] *)

(** C5, the claim refuted: a specification that passes every check and
    supplies no output paddings makes [create_skips] raise. *)
Lemma skip_lengths_counterexample :
  checks_pass (with_output_paddings [] demo_spec) ∧
  ∃ built, @new_DynUNet ShapeLib (with_output_paddings [] demo_spec)
           = (Raise (ValueError (SkipLengths 3 0)), built).
Proof.
  split; [unfold checks_pass, kernel_stride_valid; solve_checks|].
  eexists. vm_compute. reflexivity.
Qed.

(** C5, amended. When the checks pass and there are at least
    [len(strides) - 1] output paddings, the length error of
    [create_skips] is unreachable: the two lists [__init__] hands to
    [create_skips] are equally long, and whatever the constructor ends
    in, it is not that error. *)
Theorem skip_lengths_unreachable `{BlockLibrary} (s : Spec) :
  checks_pass s →
  length (strides s) - 1 ≤ length (output_paddings s) →
  ∀ d u built, new_DynUNet s ≠ (Raise (ValueError (SkipLengths d u)), built).
Proof.
  intros ((Hk1 & Hk2 & _) & Hfs & Hd) Hop d u built Hr.
  apply construct_raise_inv in Hr as (Hdown & Hup & Hne & _).
  pose proof (length_planned_filters s Hfs) as Hlen.
  rewrite length_down_blocks in Hdown. rewrite length_up_blocks in Hup. lia.
Qed.

Lemma skip_lengths_unreachable_witness :
  checks_pass demo_spec ∧
  ∀ d u built, @new_DynUNet ShapeLib demo_spec ≠ (Raise (ValueError (SkipLengths d u)), built).
Proof.
  assert (Hc : checks_pass demo_spec) by (unfold checks_pass, kernel_stride_valid; solve_checks).
  split; [exact Hc|].
  apply (@skip_lengths_unreachable ShapeLib demo_spec Hc). simpl. lia.
Defined.

(** ** Derived filters *)

(** C7. When [filters] is not supplied, [self.filters] has one entry per
    stride, entry [i] being [min(2 ** (5 + i), cap)] with [cap] 320 for
    three spatial dimensions and 512 otherwise; [check_filters] leaves
    the list as it is and a constructed network holds it.  For three
    dimensions and four strides it is [[32, 64, 128, 256]]. *)
Theorem derived_filters `{BlockLibrary} (s : Spec) :
  filters s = None →
  check_filters s (init_filters s) = Ok (init_filters s) ∧
  length (init_filters s) = length (strides s) ∧
  (∀ i : nat, i < length (strides s) →
     init_filters s !! i
     = Some (Z.min (2 ^ (5 + Z.of_nat i)) (if decide (spatial_dims s = 3%Z) then 320 else 512))) ∧
  (∀ net built, new_DynUNet s = (Ok net, built) → net_filters net = init_filters s) ∧
  (spatial_dims s = 3%Z → length (strides s) = 4 → init_filters s = [32; 64; 128; 256]%Z).
Proof.
  intros Hf. pose proof (check_filters_derived s Hf) as Hcf.
  split; [done|]. unfold init_filters in *. rewrite Hf in *.
  repeat split.
  - apply length_derive_filters.
  - intros i Hi. by apply lookup_derive_filters.
  - intros net built Hnew. apply construct_inv in Hnew as (_ & -> & _).
    unfold planned_filters, init_filters. rewrite Hf.
    apply take_ge. by rewrite length_derive_filters.
  - intros -> ->. reflexivity.
Qed.

Lemma derived_filters_witness :
  filters demo_spec_3d = None ∧
  init_filters demo_spec_3d = [32; 64; 128; 256]%Z ∧
  init_filters demo_spec !! 3 = Some 256%Z.
Proof.
  assert (H3 : filters demo_spec_3d = None) by reflexivity.
  assert (H2 : filters demo_spec = None) by reflexivity.
  split; [exact H3|]. split.
  - apply (@derived_filters ShapeLib demo_spec_3d H3); reflexivity.
  - apply (proj1 (proj2 (proj2 (@derived_filters ShapeLib demo_spec H2))) 3). simpl. lia.
Defined.

(** ** Kernel and stride validation *)

(** C8. [check_kernel_stride] returns exactly when the two sequences
    have the same length, at least three, and every entry that is not a
    scalar has [spatial_dims] components; otherwise it raises one of its
    three [ValueError]s, and so a constructor given invalid sequences
    fails.  It also fails when the filters are fewer than the strides. *)
Theorem kernel_stride_validation `{BlockLibrary} (s : Spec) :
  (check_kernel_stride s = Ok tt ↔ kernel_stride_valid s) ∧
  (∀ e, check_kernel_stride s = Raise e → kernel_stride_error e) ∧
  (¬ kernel_stride_valid s → ∃ e built, new_DynUNet s = (Raise e, built)) ∧
  (length (init_filters s) < length (strides s) →
   ∃ built, new_DynUNet s = (Raise (ValueError FiltersLength), built)).
Proof.
  split; [apply check_kernel_stride_iff|].
  split; [apply check_kernel_stride_error|]. split.
  - intros Hinv. pose proof (construct_outcome s) as Ho.
    destruct (new_DynUNet s) as [[net|e] built]; [|by exists e, built].
    destruct Ho as (_ & _ & _ & _ & _ & _ & _ & _ & _ & _ & _ & Hks & _).
    by apply check_kernel_stride_iff in Hks.
  - intros Hlt. pose proof (construct_outcome s) as Ho.
    unfold new_DynUNet, construct in *.
    destruct (check_filters_cases s) as [[_ Hcf]|(Hge & _)]; [|done].
    exists []. erewrite bind_raise; [done|]. unfold lift. by rewrite Hcf.
Qed.

(** ** The forward pass as a list of buffer assignments *)

Section Forward.
Context `{BlockLibrary}.
Implicit Types (n : Node) (x : Tensor) (hs : list Tensor) (ws : list (Z * Tensor)).

Lemma set_head_ok i v hs :
  (0 ≤ i < Z.of_nat (length hs))%Z → set_head i v hs = (Ok tt, <[Z.to_nat i := v]> hs).
Proof. intros Hi. unfold set_head. by rewrite py_setitem_ok. Qed.

Lemma run_writes_app ws1 ws2 hs :
  run_writes (ws1 ++ ws2) hs
  = match run_writes ws1 hs with
    | (Ok _, hs') => run_writes ws2 hs'
    | (Raise e, hs') => (Raise e, hs')
    end.
Proof.
  revert hs. induction ws1 as [|[i v] ws1 IH]; intros hs; [done|].
  simpl. unfold mbind, state_err_bind.
  destruct (set_head i v hs) as [[[]|e] hs1]; [apply IH|done].
Qed.

(** A skip layer's forward is its list of assignments followed by the
    return of its pair. *)
Lemma skip_forward_eq n x hs :
  is_skip_layer n = true →
  skip_forward n x hs
  = match run_writes (head_writes n x) hs with
    | (Ok _, hs') => (Ok (eval_node n x), hs')
    | (Raise e, hs') => (Raise e, hs')
    end.
Proof.
  revert x hs. induction n as [b|index d u next IH sh]; intros x hs Hskip; [done|].
  cbn [skip_forward head_writes]. rewrite run_writes_app.
  set (down_out := block_forward d x).
  assert (Hnext :
    (match next with
     | SkipLayer _ _ _ _ _ => skip_forward next down_out
     | Bottleneck b => mret (block_forward b down_out, block_forward b down_out)
     end) hs
    = match run_writes (head_writes next down_out) hs with
      | (Ok _, hs') => (Ok (eval_node next down_out), hs')
      | (Raise e, hs') => (Raise e, hs')
      end).
  { destruct next; [done|]. by apply IH. }
  unfold mbind at 1. unfold state_err_bind at 1. rewrite Hnext.
  destruct (run_writes (head_writes next down_out) hs) as [[[]|e] hs1]; [|done].
  cbn [eval_node]. fold down_out.
  destruct (eval_node next down_out) as [bottleneck_out next_out]. cbn [snd].
  destruct sh as [h|]; [destruct (0 <? index)%Z|]; simpl;
    unfold mbind, state_err_bind, mret, state_err_ret;
    try done.
  by destruct (set_head _ _ hs1) as [[[]|e] hs2].
Qed.

Lemma head_writes_slots n x : (head_writes n x).*1 = write_slots n.
Proof.
  revert x. induction n as [b|index d u next IH sh]; intros x; [done|].
  cbn [head_writes write_slots]. rewrite fmap_app, IH.
  f_equal. destruct sh; [destruct (0 <? index)%Z|]; done.
Qed.

(** Assignments within the buffer succeed and keep its length; a slot
    assigned once holds the value assigned, a slot not assigned keeps
    its value. *)
Lemma run_writes_ok ws hs :
  Forall (λ slot, (0 ≤ slot < Z.of_nat (length hs))%Z) ws.*1 →
  ∃ hs',
    run_writes ws hs = (Ok tt, hs') ∧ length hs' = length hs ∧
    (∀ j : nat, Z.of_nat j ∉ ws.*1 → hs' !! j = hs !! j) ∧
    (NoDup ws.*1 → ∀ slot v, (slot, v) ∈ ws → hs' !! Z.to_nat slot = Some v).
Proof.
  revert hs. induction ws as [|[i v] ws IH]; intros hs Hin.
  - exists hs. do 3 (split; [done|]). intros _ slot v Hel. by apply elem_of_nil in Hel.
  - apply Forall_cons in Hin as [Hi Hin]. simpl in Hi.
    destruct (IH (<[Z.to_nat i := v]> hs)) as (hs' & Hrun & Hlen & Hkeep & Hget).
    { by rewrite length_insert. }
    exists hs'. simpl. erewrite bind_ok by (by apply set_head_ok).
    rewrite length_insert in Hlen. do 2 (split; [done|]). split.
    + intros j [Hji Hj]%not_elem_of_cons. rewrite (Hkeep j Hj).
      apply list_lookup_insert_ne. lia.
    + intros [Hni Hnd]%NoDup_cons slot v0 [[= -> ->]|Hel]%elem_of_cons; [|by apply Hget].
      rewrite Hkeep by (by rewrite Z2Nat.id by lia).
      apply list_lookup_insert_eq. lia.
Qed.

Lemma write_slots_indexed index n :
  indexed_from index n →
  Forall (λ slot, (index - 1 ≤ slot)%Z) (write_slots n) ∧ NoDup (write_slots n).
Proof.
  revert index. induction n as [b|i d u next IH sh]; intros index Hidx; simpl.
  - split; [done|apply NoDup_nil_2].
  - destruct Hidx as [-> Hidx]. destruct (IH _ Hidx) as [Hge Hnd].
    assert (Hcur : ∀ slot,
      slot ∈ match sh with
             | Some _ => if (0 <? index)%Z then [(index - 1)%Z] else []
             | None => []
             end → slot = (index - 1)%Z).
    { intros slot. destruct sh; [destruct (0 <? index)%Z|];
        [by intros ->%list_elem_of_singleton|by intros ?%elem_of_nil..]. }
    split.
    + apply Forall_app. split.
      * eapply Forall_impl; [exact Hge|]. simpl. lia.
      * apply Forall_forall. intros slot ->%Hcur. lia.
    + apply NoDup_app. repeat split; [done| |].
      * intros slot Hin ->%Hcur. rewrite Forall_forall in Hge. apply Hge in Hin. lia.
      * destruct sh; [destruct (0 <? index)%Z|];
          [apply NoDup_singleton|apply NoDup_nil_2..].
Qed.

Lemma write_slots_elem n slot :
  slot ∈ write_slots n →
  ∃ idx h, (idx, Some h) ∈ levels n ∧ (0 < idx)%Z ∧ slot = (idx - 1)%Z.
Proof.
  induction n as [b|index d u next IH sh]; simpl; [by intros ?%elem_of_nil|].
  intros [Hin|Hin]%elem_of_app.
  - destruct (IH Hin) as (idx & h & Hel & Hpos & ->).
    exists idx, h. split; [by right|done].
  - destruct sh as [h|]; [|by apply elem_of_nil in Hin].
    destruct (Z.ltb_spec 0 index); [|by apply elem_of_nil in Hin].
    apply list_elem_of_singleton in Hin as ->.
    exists index, h. split; [by left|done].
Qed.

Lemma elem_of_head_writes n x k idx h t :
  levels n !! k = Some (idx, Some h) → (0 < idx)%Z → up_out_at n x k = Some t →
  ((idx - 1)%Z, block_forward h t) ∈ head_writes n x.
Proof.
  revert x k. induction n as [b|index d u next IH sh]; intros x k Hlev Hpos Hup; [done|].
  cbn [head_writes]. apply elem_of_app. destruct k as [|k].
  - right. simpl in Hlev, Hup. injection Hlev as -> ->. injection Hup as <-.
    destruct (Z.ltb_spec 0 idx); [|lia]. by left.
  - left. by apply (IH _ k).
Qed.

Lemma up_out_at_is_Some n x k : k < depth n → is_Some (up_out_at n x k).
Proof.
  revert x k. induction n as [b|index d u next IH sh]; intros x k Hk; simpl in *; [lia|].
  destruct k; [by eexists|]. apply IH. lia.
Qed.

(** The first component a node returns is the bottleneck block applied
    to what the descent produced. *)
Lemma eval_node_fst n x : (eval_node n x).1 = block_forward (leaf n) (descend n x).
Proof.
  revert x. induction n as [b|index d u next IH sh]; intros x; [done|].
  simpl. specialize (IH (block_forward d x)).
  by destruct (eval_node next (block_forward d x)).
Qed.


(** A skip layer whose assignments lie within the buffer returns its
    pair and leaves the buffer as long as it was. *)
Lemma skip_forward_ok n x hs :
  is_skip_layer n = true →
  Forall (λ slot, (0 ≤ slot < Z.of_nat (length hs))%Z) (write_slots n) →
  ∃ hs', skip_forward n x hs = (Ok (eval_node n x), hs') ∧ length hs' = length hs ∧
         run_writes (head_writes n x) hs = (Ok tt, hs').
Proof.
  intros Hskip Hin. rewrite <- (head_writes_slots n x) in Hin.
  destruct (run_writes_ok _ _ Hin) as (hs' & Hrun & Hlen & _).
  exists hs'. by rewrite skip_forward_eq, Hrun.
Qed.

End Forward.

Lemma create_skips_indexed index downs ups b sh n :
  create_skips index downs ups b sh = Ok n → indexed_from index n.
Proof.
  revert index ups sh n. induction downs as [|d downs IH]; intros index ups sh n Hn.
  - by apply create_skips_nil_inv in Hn as [_ ->].
  - apply create_skips_cons_inv in Hn as (u & ups' & next & -> & Hnext & ->).
    simpl. split; [done|]. by eapply IH.
Qed.

(** ** The chain and the buffer of a constructed network *)

Section Constructed.
Context `{BlockLibrary}.
Context (s : Spec) (net : Net) (built : list Block).
Context (Hnet : constructed s net built).

Lemma constructed_heads_length : length (heads net) = Z.to_nat (deep_supr_num s).
Proof.
  destruct Hnet as (_ & _ & _ & _ & _ & _ & _ & _ & -> & _). apply length_replicate.
Qed.

Lemma constructed_dsh_length :
  length (deep_supervision_heads net) = Z.to_nat (deep_supr_num s) ∧
  Z.to_nat (deep_supr_num s) ≤ length (strides s) - 2.
Proof.
  pose proof (constructed_depth _ _ _ Hnet) as (_ & Hge & _).
  destruct Hnet as (_ & _ & _ & _ & _ & _ & _ & _ & _ & Hlt & -> & _).
  rewrite length_head_blocks. lia.
Qed.

Lemma constructed_levels :
  levels (skip_layers net)
  = (0%Z, None) ::
    ((λ i : nat, ((1 + Z.of_nat i)%Z, deep_supervision_heads net !! i))
     <$> seq 0 (length (strides s) - 2)).
Proof.
  pose proof (constructed_depth _ _ _ Hnet) as (_ & _ & Hdown & _).
  destruct Hnet as (_ & _ & _ & _ & _ & _ & _ & _ & _ & _ & _ & _ & Hskip & _).
  by rewrite (create_skips_levels_top _ _ _ _ _ _ Hskip), Hdown.
Qed.

Lemma constructed_level (k : nat) :
  k < length (strides s) - 2 →
  levels (skip_layers net) !! S k
  = Some ((1 + Z.of_nat k)%Z, deep_supervision_heads net !! k).
Proof.
  intros Hk. rewrite constructed_levels. simpl.
  by rewrite list_lookup_fmap, lookup_seq_lt.
Qed.

Lemma constructed_indexed : indexed_from 0 (skip_layers net).
Proof.
  destruct Hnet as (_ & _ & _ & _ & _ & _ & _ & _ & _ & _ & _ & _ & Hskip & _).
  by eapply create_skips_indexed.
Qed.

Lemma constructed_wf : wf_node (seg_out_channels s) (skip_layers net).
Proof.
  destruct Hnet as (_ & _ & Hib & Hbn & Hdown & Hup & _ & _ & _ & _ & Hdsh & _ & Hskip & _).
  eapply create_skips_wf; [| | | |exact Hskip].
  - constructor; [done|]. rewrite Hdown. apply down_blocks_conv.
  - unfold slice_rev. apply Forall_reverse. rewrite Hup. apply up_blocks_conv.
  - done.
  - rewrite Hdsh. apply head_blocks_out.
Qed.

(** Every assignment of a pass goes to a slot of the buffer, and comes
    from a level between 1 and [deep_supr_num] that holds a head. *)
Lemma constructed_slots slot :
  slot ∈ write_slots (skip_layers net) →
  (0 ≤ slot < Z.of_nat (length (heads net)))%Z ∧
  ∃ index h, (index, Some h) ∈ levels (skip_layers net) ∧
             (1 ≤ index ≤ deep_supr_num s)%Z ∧ slot = (index - 1)%Z.
Proof.
  intros (idx & h & Hel & Hpos & ->)%write_slots_elem.
  rewrite constructed_heads_length.
  pose proof constructed_dsh_length as [Hlen _].
  pose proof Hel as Hel'. rewrite constructed_levels in Hel'.
  apply elem_of_cons in Hel' as [[= ]|Hel'].
  apply list_elem_of_fmap in Hel' as (i & [= -> Hh] & _).
  symmetry in Hh. apply lookup_lt_Some in Hh. rewrite Hlen in Hh.
  split; [lia|]. exists (1 + Z.of_nat i)%Z, h. repeat split; [done|lia|lia].
Qed.

(** A pass over the chain returns, and leaves in slot [i] what the head
    of level [i + 1] made of that level's [up_out]. *)
Lemma constructed_forward x hs :
  length hs = length (heads net) →
  ∃ hs',
    skip_forward (skip_layers net) x hs = (Ok (eval_node (skip_layers net) x), hs') ∧
    length hs' = length hs ∧
    ∀ i, i < Z.to_nat (deep_supr_num s) →
      ∃ h t, deep_supervision_heads net !! i = Some h ∧
             up_out_at (skip_layers net) x (S i) = Some t ∧
             hs' !! i = Some (block_forward h t).
Proof.
  intros Hlen.
  pose proof (constructed_depth _ _ _ Hnet) as (_ & _ & _ & _ & Hdepth & Hskip & _).
  pose proof constructed_dsh_length as [Hdsh Hle].
  assert (Hin : Forall (λ slot, (0 ≤ slot < Z.of_nat (length hs))%Z)
                       (write_slots (skip_layers net))).
  { apply Forall_forall. intros slot Hslot. rewrite Hlen. by apply constructed_slots. }
  destruct (write_slots_indexed _ _ constructed_indexed) as [_ Hnd].
  rewrite <- (head_writes_slots _ x) in Hin, Hnd.
  destruct (run_writes_ok _ _ Hin) as (hs' & Hrun & Hlen' & _ & Hget).
  exists hs'. rewrite skip_forward_eq, Hrun by done. repeat split; [done|].
  intros i Hi.
  destruct (lookup_lt_is_Some_2 (deep_supervision_heads net) i) as [h Hh]; [lia|].
  destruct (up_out_at_is_Some (skip_layers net) x (S i)) as [t Ht]; [lia|].
  exists h, t. repeat split; [done|done|].
  pose proof (elem_of_head_writes (skip_layers net) x (S i) (1 + Z.of_nat i)%Z h t) as Hel.
  rewrite constructed_level, Hh in Hel by lia.
  specialize (Hget Hnd _ _ (Hel eq_refl ltac:(lia) Ht)).
  by replace (Z.to_nat (1 + Z.of_nat i - 1)) with i in Hget by lia.
Qed.

End Constructed.

(** ** Forward evaluation of a constructed network *)

Lemma forward_eq `{BlockLibrary} (net : Net) training x hs bottleneck_out up_out hs' :
  skip_forward (skip_layers net) x hs = (Ok (bottleneck_out, up_out), hs') →
  forward net training x hs
  = (Ok (block_forward (cls_output_block net) bottleneck_out,
         let seg_out := block_forward (seg_output_block net) up_out in
         if training
         then torch_stack
                (seg_out :: ((λ fm, interpolate fm (drop 2 (shape seg_out))) <$> hs')) 1
         else seg_out),
     hs').
Proof.
  intros Hskip. unfold forward. erewrite bind_ok by exact Hskip.
  by destruct training.
Qed.

(** C2. In a network the constructor returned, with [deep_supr_num] not
    negative: the head buffer and the list of heads have length
    [deep_supr_num]; level 0 holds no head; level [k], for [k] from 1
    to [deep_supr_num], holds the head [k - 1] of the list; deeper
    levels hold none; and a forward pass leaves in slot [k - 1] the
    output of the head of level [k], so that slot 0 belongs to level 1. *)
Theorem head_attachment `{BlockLibrary} (s : Spec) (net : Net) (built : list Block) :
  new_DynUNet s = (Ok net, built) →
  (0 ≤ deep_supr_num s)%Z →
  Z.of_nat (length (heads net)) = deep_supr_num s ∧
  Z.of_nat (length (deep_supervision_heads net)) = deep_supr_num s ∧
  levels (skip_layers net) !! 0 = Some (0%Z, None) ∧
  (∀ k : nat, (1 ≤ Z.of_nat k ≤ deep_supr_num s)%Z →
     ∃ h, deep_supervision_heads net !! (k - 1) = Some h ∧
          levels (skip_layers net) !! k = Some (Z.of_nat k, Some h)) ∧
  (∀ k : nat, (deep_supr_num s < Z.of_nat k)%Z → k < depth (skip_layers net) →
     levels (skip_layers net) !! k = Some (Z.of_nat k, None)) ∧
  (∀ x hs, length hs = length (heads net) →
     ∃ r hs',
       skip_forward (skip_layers net) x hs = (Ok r, hs') ∧ length hs' = length hs ∧
       ∀ k : nat, (1 ≤ Z.of_nat k ≤ deep_supr_num s)%Z →
         ∃ h t, levels (skip_layers net) !! k = Some (Z.of_nat k, Some h) ∧
                up_out_at (skip_layers net) x k = Some t ∧
                hs' !! (k - 1) = Some (block_forward h t)).
Proof.
  intros Hnew%construct_inv Hpos.
  pose proof (constructed_heads_length _ _ _ Hnew) as Hheads.
  pose proof (constructed_dsh_length _ _ _ Hnew) as [Hdsh Hle].
  pose proof (constructed_depth _ _ _ Hnew) as (_ & _ & _ & _ & Hdepth & _).
  assert (Hlevel : ∀ k : nat, (1 ≤ Z.of_nat k ≤ deep_supr_num s)%Z →
     ∃ h, deep_supervision_heads net !! (k - 1) = Some h ∧
          levels (skip_layers net) !! k = Some (Z.of_nat k, Some h)).
  { intros [|k] Hk; [lia|].
    destruct (lookup_lt_is_Some_2 (deep_supervision_heads net) k) as [h Hh]; [lia|].
    exists h. replace (S k - 1) with k by lia. split; [done|].
    rewrite (constructed_level _ _ _ Hnew) by lia. rewrite Hh. do 2 f_equal. lia. }
  repeat split; [lia|lia|by rewrite (constructed_levels _ _ _ Hnew)|done| |].
  - intros [|k] Hk Hlt; [lia|].
    rewrite (constructed_level _ _ _ Hnew) by lia.
    rewrite (lookup_ge_None_2 (deep_supervision_heads net) k) by lia.
    do 2 f_equal. lia.
  - intros x hs Hlen.
    destruct (constructed_forward _ _ _ Hnew x hs Hlen) as (hs' & Hfwd & Hlen' & Hslots).
    exists (eval_node (skip_layers net) x), hs'. repeat split; [done|done|].
    intros [|k] Hk; [lia|].
    destruct (Hslots k ltac:(lia)) as (h & t & Hh & Ht & Hget).
    destruct (Hlevel (S k) Hk) as (h' & Hh' & Hlev).
    replace (S k - 1) with k in * by lia.
    exists h, t. repeat split; [congruence|done|done].
Qed.

Lemma head_attachment_witness :
  ∃ net built,
    @new_DynUNet ShapeLib demo_spec = (Ok net, built) ∧
    Z.of_nat (length (heads net)) = 2%Z ∧
    levels (skip_layers net) !! 0 = Some (0%Z, None) ∧
    (∃ h, deep_supervision_heads net !! 0 = Some h ∧
          levels (skip_layers net) !! 1 = Some (1%Z, Some h)) ∧
    ∃ h t hs',
      (@skip_forward ShapeLib (skip_layers net) demo_input (heads net)).2 = hs' ∧
      @up_out_at ShapeLib (skip_layers net) demo_input 1 = Some t ∧
      hs' !! 0 = Some (@block_forward ShapeLib h t).
Proof.
  destruct (@new_DynUNet ShapeLib demo_spec) as [[net|e] built] eqn:Hnew;
    [|vm_compute in Hnew; discriminate].
  assert (Hpos : (0 ≤ deep_supr_num demo_spec)%Z) by (change (0 ≤ 2)%Z; lia).
  assert (H1 : (1 ≤ Z.of_nat 1 ≤ deep_supr_num demo_spec)%Z) by (change (1 ≤ 1 ≤ 2)%Z; lia).
  destruct (@head_attachment ShapeLib demo_spec net built Hnew Hpos)
    as (Hlen & _ & Hl0 & Hlevel & _ & Hfwd).
  destruct (Hfwd demo_input (heads net) eq_refl) as (r & hs' & Hrun & _ & Hslot).
  destruct (Hslot 1 H1) as (h & t & _ & Ht & Hget).
  exists net, built. split; [reflexivity|]. split; [exact Hlen|]. split; [exact Hl0|].
  split; [exact (Hlevel 1 H1)|].
  exists h, t, hs'. split; [by rewrite Hrun|]. split; [exact Ht|exact Hget].
Defined.

(** C10. In a network the constructor returned, every slot a pass
    assigns lies within the head buffer, whose length is
    [deep_supr_num] (or 0 when that is negative): the slot is
    [index - 1] for a level [index] between 1 and [deep_supr_num] that
    holds a head.  The pass is its list of assignments, none of which
    raises, and the buffer keeps its length. *)
Theorem head_writes_in_bounds `{BlockLibrary} (s : Spec) (net : Net) (built : list Block) :
  new_DynUNet s = (Ok net, built) →
  length (heads net) = Z.to_nat (deep_supr_num s) ∧
  (∀ slot, slot ∈ write_slots (skip_layers net) →
     (0 ≤ slot < Z.of_nat (length (heads net)))%Z ∧
     ∃ index h, (index, Some h) ∈ levels (skip_layers net) ∧
                (1 ≤ index ≤ deep_supr_num s)%Z ∧ slot = (index - 1)%Z) ∧
  (∀ x hs, length hs = length (heads net) →
     (head_writes (skip_layers net) x).*1 = write_slots (skip_layers net) ∧
     ∃ hs',
       run_writes (head_writes (skip_layers net) x) hs = (Ok tt, hs') ∧
       skip_forward (skip_layers net) x hs = (Ok (eval_node (skip_layers net) x), hs') ∧
       length hs' = length hs ∧
       ∀ training, ∃ out, forward net training x hs = (Ok out, hs')).
Proof.
  intros Hnew%construct_inv.
  split; [by eapply constructed_heads_length|].
  split; [intros slot; by eapply constructed_slots|].
  intros x hs Hlen. split; [apply head_writes_slots|].
  pose proof (constructed_depth _ _ _ Hnew) as (_ & _ & _ & _ & _ & Hskip & _).
  destruct (skip_forward_ok (skip_layers net) x hs Hskip) as (hs' & Hfwd & Hlen' & Hrun).
  { apply Forall_forall. intros slot Hslot. rewrite Hlen.
    by eapply constructed_slots. }
  exists hs'. repeat split; [done|done|done|].
  intros training. destruct (eval_node (skip_layers net) x) as [bo uo].
  eexists. by apply forward_eq.
Qed.

Lemma head_writes_in_bounds_witness :
  ∃ net built,
    @new_DynUNet ShapeLib demo_spec = (Ok net, built) ∧
    length (heads net) = 2 ∧
    (∀ slot, slot ∈ write_slots (skip_layers net) → (0 ≤ slot < 2)%Z) ∧
    ∃ hs', @skip_forward ShapeLib (skip_layers net) demo_input (heads net)
           = (Ok (@eval_node ShapeLib (skip_layers net) demo_input), hs') ∧
           length hs' = 2.
Proof.
  destruct (@new_DynUNet ShapeLib demo_spec) as [[net|e] built] eqn:Hnew;
    [|vm_compute in Hnew; discriminate].
  destruct (@head_writes_in_bounds ShapeLib demo_spec net built Hnew) as (Hlen & Hslots & Hfwd).
  change (Z.to_nat (deep_supr_num demo_spec)) with 2 in Hlen.
  destruct (Hfwd demo_input (heads net) eq_refl) as (_ & hs' & _ & Hrun & Hlen' & _).
  exists net, built. split; [reflexivity|]. split; [exact Hlen|]. split.
  - intros slot Hslot. destruct (Hslots slot Hslot) as [Hin _]. rewrite Hlen in Hin. exact Hin.
  - exists hs'. split; [exact Hrun|]. by rewrite Hlen'.
Defined.



(** ** Shapes: stacking in training mode *)

Section Shapes.
Context `{BlockContracts}.

Lemma is_conv_inv blk : is_conv blk → ∃ cls p, blk = ConvBlock cls p.
Proof. destruct blk; [eauto|done..]. Qed.

Lemma is_out_inv outc blk : is_out outc blk → ∃ sd inc dr, blk = UnetOutBlock sd inc outc dr.
Proof. destruct blk; [done| |done]. simpl. intros ->. eauto. Qed.

(** Down a well-formed chain every [up_out] has the batch size and the
    number of spatial axes of the input. *)
Lemma eval_node_shape outc n x b r :
  wf_node outc n → bshape b r x →
  bshape b r (eval_node n x).2 ∧
  ∀ k t, up_out_at n x k = Some t → bshape b r t.
Proof.
  revert x. induction n as [blk|index d u next IH sh]; intros x Hwf Hx.
  - apply is_conv_inv in Hwf as (cls & p & ->). simpl. split; [by apply conv_shape|done].
  - destruct Hwf as ((cd & pd & ->)%is_conv_inv & (cu & pu & ->)%is_conv_inv & _ & Hwf).
    pose proof (conv_shape cd pd x b r Hx) as Hdown.
    destruct (IH _ Hwf Hdown) as [Hnext Hdeeper].
    assert (Hup : bshape b r (eval_node (SkipLayer index (ConvBlock cd pd) (ConvBlock cu pu)
                                                   next sh) x).2).
    { cbn [eval_node].
      destruct (eval_node next (block_forward (ConvBlock cd pd) x)) as [bo no].
      by apply up_shape. }
    split; [done|]. intros [|k] t Ht.
    + by injection Ht as <-.
    + by eapply Hdeeper.
Qed.

Lemma levels_wf outc n k idx h :
  wf_node outc n → levels n !! k = Some (idx, Some h) → is_out outc h.
Proof.
  revert k. induction n as [blk|index d u next IH sh]; intros k Hwf Hk; [done|].
  destruct Hwf as (_ & _ & Hsh & Hwf). destruct k as [|k].
  - simpl in Hk. by simplify_eq.
  - simpl in Hk. by apply (IH k).
Qed.

(** C6. In a network the constructor returned, with [deep_supr_num] not
    negative, on an input of batch size [b]: in evaluation mode
    [forward] returns the primary segmentation output, of shape
    [b :: seg_out_channels :: spatial]; in training mode it returns the
    stack at [dim=1] of that output followed by the tensors of the head
    buffer in slot order, each interpolated to [spatial], slot [i]
    holding the output of the head of level [i + 1]; the stack has
    shape [b :: 1 + deep_supr_num :: seg_out_channels :: spatial]. *)
Theorem training_stack (s : Spec) (net : Net) (built : list Block)
    (x : Tensor) (hs : list Tensor) (b c : Z) (spatial_in : list Z) :
  new_DynUNet s = (Ok net, built) →
  (0 ≤ deep_supr_num s)%Z →
  shape x = b :: c :: spatial_in →
  length hs = length (heads net) →
  ∃ cls_out seg_out hs' spatial,
    forward net false x hs = (Ok (cls_out, seg_out), hs') ∧
    shape seg_out = b :: seg_out_channels s :: spatial ∧
    forward net true x hs
    = (Ok (cls_out, torch_stack (seg_out :: ((λ fm, interpolate fm spatial) <$> hs')) 1), hs') ∧
    Z.of_nat (length hs') = deep_supr_num s ∧
    (∀ i : nat, i < length hs' →
       ∃ h t, levels (skip_layers net) !! S i = Some ((1 + Z.of_nat i)%Z, Some h) ∧
              up_out_at (skip_layers net) x (S i) = Some t ∧
              hs' !! i = Some (block_forward h t)) ∧
    Forall (λ fm, shape (interpolate fm spatial) = b :: seg_out_channels s :: spatial) hs' ∧
    shape (torch_stack (seg_out :: ((λ fm, interpolate fm spatial) <$> hs')) 1)
    = b :: (1 + deep_supr_num s)%Z :: seg_out_channels s :: spatial.
Proof.
  intros Hnew%construct_inv Hpos Hx Hlen.
  pose proof (constructed_heads_length _ _ _ Hnew) as Hheads.
  pose proof (constructed_dsh_length _ _ _ Hnew) as [Hdsh Hle].
  pose proof (constructed_wf _ _ _ Hnew) as Hwf.
  destruct (constructed_forward _ _ _ Hnew x hs Hlen) as (hs' & Hfwd & Hlen' & Hslots).
  assert (Hbx : bshape b (length spatial_in) x) by (by exists c, spatial_in).
  destruct (eval_node_shape _ _ _ _ _ Hwf Hbx) as [(c0 & sp0 & Hup & Hr0) Hdeeper].
  destruct (eval_node (skip_layers net) x) as [bottleneck_out up_out] eqn:Heval.
  simpl in Hup.
  pose proof Hnew as (_ & _ & _ & _ & _ & _ & (sd & inc & dr & Hseg)%is_out_inv & _).
  set (seg_out := block_forward (seg_output_block net) up_out).
  assert (Hshape : shape seg_out = b :: seg_out_channels s :: sp0).
  { unfold seg_out. rewrite Hseg. by eapply out_shape. }
  assert (Hslot : ∀ i : nat, i < length hs' →
     ∃ h t, levels (skip_layers net) !! S i = Some ((1 + Z.of_nat i)%Z, Some h) ∧
            up_out_at (skip_layers net) x (S i) = Some t ∧
            hs' !! i = Some (block_forward h t)).
  { intros i Hi. destruct (Hslots i ltac:(lia)) as (h & t & Hh & Ht & Hget).
    exists h, t. repeat split; [|done|done].
    rewrite (constructed_level _ _ _ Hnew i) by lia. by rewrite Hh. }
  assert (Hall : Forall (λ fm, shape (interpolate fm sp0) = b :: seg_out_channels s :: sp0) hs').
  { apply Forall_lookup. intros i fm Hfm.
    destruct (Hslot i (lookup_lt_Some _ _ _ Hfm)) as (h & t & Hlev & Ht & Hget).
    rewrite Hfm in Hget. injection Hget as ->.
    pose proof (levels_wf _ _ _ _ _ Hwf Hlev) as Hout.
    apply is_out_inv in Hout as (sd' & inc' & dr' & ->).
    destruct (Hdeeper _ _ Ht) as (ct & spt & Hst & Hrt).
    eapply interpolate_shape; [by eapply out_shape|lia]. }
  exists (block_forward (cls_output_block net) bottleneck_out), seg_out, hs', sp0.
  pose proof (forward_eq net false x hs _ _ _ Hfwd) as Heval_mode.
  pose proof (forward_eq net true x hs _ _ _ Hfwd) as Htrain_mode.
  cbv zeta in Heval_mode, Htrain_mode. fold seg_out in Heval_mode, Htrain_mode.
  rewrite Hshape in Htrain_mode. simpl in Htrain_mode.
  repeat split; [done|done|done|lia|done|done|].
  erewrite stack_shape; [|done|].
  - simpl. rewrite length_fmap. do 2 f_equal. lia.
  - constructor; [done|]. by apply Forall_fmap.
Qed.

End Shapes.

(** The shape-level instance meets the contracts. *)
Lemma ShapeLib_contracts : @BlockContracts ShapeLib.
Proof.
  split.
  - intros cls p t b r (c & sp & Ht & Hr). simpl in *. subst t.
    eexists _, _. split; [reflexivity|].
    destruct (p_stride p); simpl.
    + by rewrite length_fmap.
    + rewrite length_zip_with, length_take, length_app, length_replicate. lia.
  - intros cls p inp skip b r _ (c & sp & Ht & Hr). simpl in *. subst skip.
    by eexists _, _.
  - intros sd inc outc dr t b c sp Ht. simpl in *. by subst t.
  - intros t size b c sp Ht _. simpl in *. by subst t.
  - intros ts b rest Hne Hall. simpl in *.
    destruct ts as [|t ts]; [done|]. apply Forall_cons in Hall as [-> _]. done.
Qed.

Lemma training_stack_witness :
  ∃ net built,
    @new_DynUNet ShapeLib demo_spec = (Ok net, built) ∧
    ∃ cls_out stacked hs' spatial,
      @forward ShapeLib net true demo_input (heads net) = (Ok (cls_out, stacked), hs') ∧
      @shape ShapeLib stacked = (1 :: 3 :: 2 :: spatial)%Z.
Proof.
  destruct (@new_DynUNet ShapeLib demo_spec) as [[net|e] built] eqn:Hnew;
    [|vm_compute in Hnew; discriminate].
  assert (Hpos : (0 ≤ deep_supr_num demo_spec)%Z) by (change (0 ≤ 2)%Z; lia).
  assert (Hx : @shape ShapeLib demo_input = [1; 1; 32; 32]%Z) by reflexivity.
  destruct (@training_stack ShapeLib ShapeLib_contracts demo_spec net built demo_input
              (heads net) 1 1 [32; 32]%Z Hnew Hpos Hx eq_refl)
    as (cls_out & seg_out & hs' & spatial & _ & _ & Htrain & _ & _ & _ & Hshape).
  exists net, built. split; [reflexivity|].
  eexists cls_out, _, hs', spatial. split; [exact Htrain|exact Hshape].
Defined.

(** * Beyond the claims *)

(** ** The constructor's outcome as a function of its arguments *)

(** With [deep_supr_num] below [len(strides) - 1], so that the range
    check passes and the head buffer has fewer entries than there are
    strides, and with every call into the block library returning, as
    the model has it: the constructor stops at the first of too few
    filters ([ValueError]); fewer than two strides or no kernel
    ([IndexError] from the stage builder); the error of
    [check_kernel_stride]; fewer output paddings than upsample stages
    (the length error of [create_skips]).  It returns a network when
    none of these applies. *)
Theorem constructor_outcome_in_range `{BlockLibrary} (s : Spec) :
  (deep_supr_num s < Z.of_nat (length (strides s)) - 1)%Z →
  match new_DynUNet s with
  | (Ok _, _) => first_error_in_range s = None
  | (Raise e, _) => first_error_in_range s = Some e
  end.
Proof.
  intros Hsmall. unfold new_DynUNet, construct.
  destruct (check_filters_cases s) as [[Hlt Hcf]|(Hge & Hlen & Hcf)].
  { erewrite bind_raise by (unfold lift; by rewrite Hcf).
    unfold first_error_in_range. by rewrite decide_True. }
  erewrite bind_ok by (unfold lift; by rewrite Hcf). cbv beta.
  set (fs := planned_filters s) in *.
  assert (Hidx : length (strides s) < 2 ∨ length (kernel_size s) = 0 →
                 first_error_in_range s = Some IndexError).
  { intros Hshort. unfold first_error_in_range.
    rewrite decide_False by done. by rewrite decide_True. }
  stage_step (get_input_block_stage s fs).
  { apply Hidx. unfold in_range in *. lia. }
  erewrite bind_ok by apply get_downsamples_eq. cbv beta.
  stage_step (get_bottleneck_stage s fs).
  { apply Hidx. unfold in_range in *. lia. }
  erewrite bind_ok by apply get_upsamples_eq. cbv beta.
  stage_step (get_cls_output_block_stage s fs (-1)%Z).
  { apply Hidx. unfold in_range in *. lia. }
  stage_step (get_seg_output_block_stage s fs 0%Z).
  { apply Hidx. unfold in_range in *. lia. }
  clear Hidx.
  assert (Hlong : ¬ (length (strides s) < 2 ∨ length (kernel_size s) = 0)).
  { unfold in_range in *. lia. }
  erewrite bind_ok by (apply get_deep_supervision_heads_ok; [lia|done]). cbv beta.
  destruct (check_kernel_stride s) as [[]|e] eqn:Hcks.
  2: { erewrite bind_raise by reflexivity.
       unfold first_error_in_range. rewrite !decide_False by (done || lia). by rewrite Hcks. }
  erewrite bind_ok by reflexivity. cbv beta.
  pose proof (proj1 (check_kernel_stride_iff s) Hcks) as (Hk1 & Hk2 & _).
  pose proof (length_down_blocks s fs) as Hdown.
  pose proof (length_up_blocks s fs) as Hup.
  match goal with |- context [create_skips 0 (?ib :: _) _ ?bn _] =>
    destruct (create_skips_cases 0 (ib :: down_blocks s fs) (slice_rev (up_blocks s fs)) bn
                (head_blocks s fs)) as [[Heq [n Hn]]|[Hne Hskip]]
  end.
  - erewrite bind_ok by (unfold lift; by rewrite Hn). cbv beta.
    unfold mret, state_err_ret, first_error_in_range.
    simpl in Heq. rewrite length_slice_rev in Heq.
    rewrite !decide_False by (done || lia). by rewrite Hcks.
  - erewrite bind_raise by (unfold lift; by rewrite Hskip).
    unfold first_error_in_range. simpl in *. rewrite length_slice_rev in *.
    rewrite !decide_False by (done || lia). rewrite Hcks.
    rewrite decide_True by lia. do 3 f_equal; lia.
Qed.

Lemma constructor_outcome_in_range_witness :
  first_error_in_range (with_kernel_size [KInt 3; KInt 3] demo_spec)
  = Some (ValueError KernelStrideLength) ∧
  ∃ built, @new_DynUNet ShapeLib (with_kernel_size [KInt 3; KInt 3] demo_spec)
           = (Raise (ValueError KernelStrideLength), built).
Proof.
  set (sp := with_kernel_size [KInt 3; KInt 3] demo_spec).
  assert (Hd : (deep_supr_num sp < Z.of_nat (length (strides sp)) - 1)%Z)
    by (change (2 < 4 - 1)%Z; lia).
  pose proof (@constructor_outcome_in_range ShapeLib sp Hd) as Ho.
  destruct (@new_DynUNet ShapeLib sp) as [[net|e] built] eqn:Hnew;
    [vm_compute in Hnew; discriminate|].
  assert (e = ValueError KernelStrideLength) as ->.
  { vm_compute in Hnew. by injection Hnew as <- _. }
  split; [exact Ho|]. by exists built.
Defined.

(** ** Which entry [check_kernel_stride] reports *)

Lemma check_entries_first sd strides kernels idx :
  idx + length kernels ≤ length strides →
  match check_entries sd strides idx kernels with
  | Ok _ => True
  | Raise (ValueError (KernelBlock j)) =>
      ∃ i kj, j = idx + i ∧ kernels !! i = Some kj ∧ ¬ entry_ok sd kj ∧
              Forall (entry_ok sd) (take i kernels) ∧
              Forall (entry_ok sd) (take i (drop idx strides))
  | Raise (ValueError (StrideBlock j)) =>
      ∃ i sj, j = idx + i ∧ strides !! j = Some sj ∧ ¬ entry_ok sd sj ∧
              Forall (entry_ok sd) (take (S i) kernels) ∧
              Forall (entry_ok sd) (take i (drop idx strides))
  | Raise _ => False
  end.
Proof.
  revert idx. induction kernels as [|kernel rest IH]; intros idx Hlen; simpl in *; [done|].
  destruct (lookup_lt_is_Some_2 strides idx) as [stride Hs]; [lia|].
  rewrite (py_index_ok _ _ _ Hs). cbn.
  destruct (negb (is_int kernel) && _) eqn:Hk; cbn.
  { exists 0, kernel. rewrite <- entry_check_ok, Hk.
    split_and!; [lia|done|done|apply Forall_nil_2..]. }
  destruct (negb (is_int stride) && _) eqn:Hst; cbn.
  { exists 0, stride. rewrite Nat.add_0_r, <- entry_check_ok, Hst.
    apply entry_check_ok in Hk.
    split_and!; [done|done|done|by apply Forall_singleton|apply Forall_nil_2]. }
  apply entry_check_ok in Hk, Hst.
  specialize (IH (S idx) ltac:(lia)).
  destruct (check_entries sd strides (S idx) rest) as [[]|[[]| |]]; try done.
  - destruct IH as (i & kj & -> & Hi & Hbad & Hks & Hss).
    exists (S i), kj. rewrite (drop_S _ _ _ Hs). simpl.
    split_and!; [lia|done|done|by constructor|by constructor].
  - destruct IH as (i & sj & -> & Hi & Hbad & Hks & Hss).
    exists (S i), sj. rewrite (drop_S _ _ _ Hs).
    replace (idx + S i) with (S idx + i) by lia. simpl.
    split_and!; [done|done|done|by constructor|by constructor].
Qed.

(** [check_kernel_stride] raises the length error exactly when the two
    sequences differ in length or are shorter than three.  Otherwise the
    lengths agree and are at least three, and it names the first
    position at which an entry has the wrong number of components, the
    kernel before the stride of the same position: every entry before
    the reported one is acceptable, and the reported one is not. *)
Theorem kernel_stride_first_offender (s : Spec) :
  (check_kernel_stride s = Raise (ValueError KernelStrideLength)
   ↔ length (kernel_size s) ≠ length (strides s) ∨ length (kernel_size s) < 3) ∧
  match check_kernel_stride s with
  | Ok _ => kernel_stride_valid s
  | Raise (ValueError KernelStrideLength) =>
      length (kernel_size s) ≠ length (strides s) ∨ length (kernel_size s) < 3
  | Raise (ValueError (KernelBlock j)) =>
      length (kernel_size s) = length (strides s) ∧ 3 ≤ length (kernel_size s) ∧
      (∃ kj, kernel_size s !! j = Some kj ∧ ¬ entry_ok (spatial_dims s) kj) ∧
      Forall (entry_ok (spatial_dims s)) (take j (kernel_size s)) ∧
      Forall (entry_ok (spatial_dims s)) (take j (strides s))
  | Raise (ValueError (StrideBlock j)) =>
      length (kernel_size s) = length (strides s) ∧ 3 ≤ length (kernel_size s) ∧
      (∃ sj, strides s !! j = Some sj ∧ ¬ entry_ok (spatial_dims s) sj) ∧
      Forall (entry_ok (spatial_dims s)) (take (S j) (kernel_size s)) ∧
      Forall (entry_ok (spatial_dims s)) (take j (strides s))
  | Raise _ => False
  end.
Proof.
  assert (Hmatch :
    match check_kernel_stride s with
    | Ok _ => kernel_stride_valid s
    | Raise (ValueError KernelStrideLength) =>
        length (kernel_size s) ≠ length (strides s) ∨ length (kernel_size s) < 3
    | Raise (ValueError (KernelBlock j)) =>
        length (kernel_size s) = length (strides s) ∧ 3 ≤ length (kernel_size s) ∧
        (∃ kj, kernel_size s !! j = Some kj ∧ ¬ entry_ok (spatial_dims s) kj) ∧
        Forall (entry_ok (spatial_dims s)) (take j (kernel_size s)) ∧
        Forall (entry_ok (spatial_dims s)) (take j (strides s))
    | Raise (ValueError (StrideBlock j)) =>
        length (kernel_size s) = length (strides s) ∧ 3 ≤ length (kernel_size s) ∧
        (∃ sj, strides s !! j = Some sj ∧ ¬ entry_ok (spatial_dims s) sj) ∧
        Forall (entry_ok (spatial_dims s)) (take (S j) (kernel_size s)) ∧
        Forall (entry_ok (spatial_dims s)) (take j (strides s))
    | Raise _ => False
    end).
  { destruct (check_kernel_stride s) as [[]|e] eqn:Hcks; [by apply check_kernel_stride_iff|].
    unfold check_kernel_stride in Hcks.
    destruct (decide (length (kernel_size s) = length (strides s))) as [Heq|Hne].
    - rewrite (bool_decide_eq_true_2 _ Heq) in Hcks. simpl in Hcks.
      destruct (decide (length (kernel_size s) < 3)) as [Hlt|Hge].
      + rewrite (bool_decide_eq_true_2 _ Hlt) in Hcks. injection Hcks as <-. by right.
      + rewrite (bool_decide_eq_false_2 _ Hge) in Hcks.
        pose proof (check_entries_first (spatial_dims s) (strides s) (kernel_size s) 0
                      ltac:(simpl; lia)) as Hfirst.
        rewrite Hcks in Hfirst. rewrite drop_0 in Hfirst.
        destruct e as [[]| |]; try done.
        * destruct Hfirst as (i & kj & -> & ? & ? & ? & ?). simpl.
          split_and!; [done|lia|eauto|done|done].
        * destruct Hfirst as (i & sj & -> & ? & ? & ? & ?). simpl in *.
          split_and!; [done|lia|eauto|done|done].
    - rewrite (bool_decide_eq_false_2 _ Hne) in Hcks. simpl in Hcks.
      injection Hcks as <-. by left. }
  split; [|exact Hmatch]. split.
  - intros Hr. by rewrite Hr in Hmatch.
  - intros Hbad. destruct (check_kernel_stride s) as [[]|[[]| |]]; try done.
    + destruct Hmatch as (? & ? & _). lia.
    + destruct Hmatch as (? & ? & _). lia.
    + destruct Hmatch as (? & ? & _). lia.
Qed.

(** ** Surplus filters *)

(** Only the first [len(strides)] filters count: two filter lists that
    agree on them give the same constructor run, network or error. *)
Theorem surplus_filters_ignored `{BlockLibrary} (s : Spec) (fs1 fs2 : list Z) :
  length (strides s) ≤ length fs1 →
  length (strides s) ≤ length fs2 →
  take (length (strides s)) fs1 = take (length (strides s)) fs2 →
  new_DynUNet (with_filters (Some fs1) s) = new_DynUNet (with_filters (Some fs2) s).
Proof.
  intros H1 H2 Htake. unfold new_DynUNet, construct, check_filters, init_filters. cbn.
  rewrite !decide_False by lia. rewrite Htake. reflexivity.
Qed.

Lemma surplus_filters_ignored_witness :
  @new_DynUNet ShapeLib (with_filters (Some [32; 64; 128; 256; 999; 7]%Z) demo_spec)
  = @new_DynUNet ShapeLib (with_filters (Some [32; 64; 128; 256]%Z) demo_spec).
Proof.
  apply (@surplus_filters_ignored ShapeLib demo_spec); [simpl; lia|simpl; lia|reflexivity].
Defined.

(** ** [create_skips] on arbitrary arguments *)

Lemma create_skips_blocks index downs ups b sh n :
  create_skips index downs ups b sh = Ok n → skip_blocks n = zip downs ups.
Proof.
  revert index ups sh n. induction downs as [|d downs IH]; intros index ups sh n Hn.
  - by apply create_skips_nil_inv in Hn as [-> ->].
  - apply create_skips_cons_inv in Hn as (u & ups' & next & -> & Hnext & ->).
    simpl. f_equal. by eapply IH.
Qed.

Lemma head_at_pos index sh i : (0 < index)%Z → head_at index sh i = sh !! i.
Proof.
  intros Hpos. unfold head_at. destruct (Z.ltb_spec 0 (index + Z.of_nat i)); [|lia].
  f_equal. lia.
Qed.

Lemma create_skips_levels index downs ups b sh n :
  create_skips index downs ups b sh = Ok n →
  levels n = (λ i : nat, ((index + Z.of_nat i)%Z, head_at index sh i)) <$> seq 0 (length downs).
Proof.
  revert index ups sh n. induction downs as [|d downs IH]; intros index ups sh n Hn.
  - by apply create_skips_nil_inv in Hn as [_ ->].
  - destruct (Z.ltb_spec 0 index) as [Hpos|Hneg].
    + rewrite (create_skips_levels_pos _ _ _ _ _ _ Hpos Hn).
      apply list_fmap_ext. intros _ i _. by rewrite head_at_pos.
    + apply create_skips_cons_inv in Hn as (u & ups' & next & -> & Hnext & ->).
      destruct (Z.ltb_spec 0 index); [lia|].
      assert (Hnone : head_at index sh 0 = None).
      { unfold head_at. by destruct (Z.ltb_spec 0 (index + Z.of_nat 0)); [lia|]. }
      cbn [levels length seq fmap list_fmap]. rewrite (IH _ _ _ _ Hnext), Hnone. f_equal.
      * f_equal. lia.
      * rewrite <- fmap_S_seq, <- list_fmap_compose.
        apply list_fmap_ext. intros _ i _. simpl. f_equal; [lia|].
        unfold head_at.
        replace (1 + index + Z.of_nat i)%Z with (index + Z.of_nat (S i))%Z by lia.
        destruct (0 <? index + Z.of_nat (S i))%Z; [|done]. f_equal. lia.
Qed.

(** [create_skips] raises exactly when its two block lists differ in
    length, reporting both lengths.  Otherwise the chain pairs the
    lists position by position, ends in the bottleneck, numbers its
    levels from [index], and hands the heads out in order to the levels
    of positive index; heads left over are dropped. *)
Theorem create_skips_spec (index : Z) (downs ups : list Block) (b : Block) (sh : list Block) :
  match create_skips index downs ups b sh with
  | Ok n =>
      length downs = length ups ∧
      skip_blocks n = zip downs ups ∧
      leaf n = b ∧
      levels n
      = (λ i : nat, ((index + Z.of_nat i)%Z, head_at index sh i)) <$> seq 0 (length downs)
  | Raise e =>
      length downs ≠ length ups ∧
      e = ValueError (SkipLengths (length downs) (length ups))
  end.
Proof.
  destruct (create_skips_cases index downs ups b sh) as [[Heq [n Hn]]|[Hne Hr]].
  - rewrite Hn. split; [done|]. split; [by eapply create_skips_blocks|].
    split; [by eapply create_skips_leaf|by eapply create_skips_levels].
  - by rewrite Hr.
Qed.

(** ** How the blocks are wired to the filters, kernels and strides *)

Lemma py_index_Some {A} (l : list A) i a :
  py_index l i = Ok a →
  l !! (if (i <? 0)%Z then length l - Z.to_nat (- i) else Z.to_nat i) = Some a.
Proof.
  unfold py_index.
  destruct (Z.ltb_spec i 0);
    (destruct (_ && _) eqn:Hin; [|done]);
    apply andb_true_iff in Hin as [Hlo%Z.leb_le Hhi%Z.ltb_lt];
    (destruct (l !! _) as [a'|] eqn:Hl; [|done]); intros [= <-]; rewrite <- Hl; f_equal; lia.
Qed.

Ltac stage_inv H :=
  unfold get_input_block, get_bottleneck, get_cls_output_block, get_seg_output_block in H;
  repeat (apply bind_ok_inv in H as (? & ? & [?%py_index_Some ->]%lift_ok_inv & H));
  rewrite instantiate_eq in H; injection H as <- <-.

Lemma get_input_block_inv s fs b0 blk b1 :
  get_input_block s fs b0 = (Ok blk, b1) →
  ∃ f0 k0 s0,
    fs !! 0 = Some f0 ∧ kernel_size s !! 0 = Some k0 ∧ strides s !! 0 = Some s0 ∧
    blk = ConvBlock (conv_block s) (conv_params s (in_channels s) f0 k0 s0).
Proof. intros Hb. stage_inv Hb. simpl in *. eauto 10. Qed.

Lemma get_bottleneck_inv s fs b0 blk b1 :
  get_bottleneck s fs b0 = (Ok blk, b1) →
  ∃ f2 f1 k1 s1,
    fs !! (length fs - 2) = Some f2 ∧ fs !! (length fs - 1) = Some f1 ∧
    kernel_size s !! (length (kernel_size s) - 1) = Some k1 ∧
    strides s !! (length (strides s) - 1) = Some s1 ∧
    blk = ConvBlock (conv_block s) (conv_params s f2 f1 k1 s1).
Proof. intros Hb. stage_inv Hb. simpl in *. eauto 10. Qed.

Lemma get_cls_output_block_inv s fs b0 blk b1 :
  get_cls_output_block s fs (-1) b0 = (Ok blk, b1) →
  ∃ f1, fs !! (length fs - 1) = Some f1 ∧
        blk = UNetClsOutBlock (spatial_dims s) f1 (cls_out_channels s) (pool_type s) (pool_fmap s).
Proof. intros Hb. stage_inv Hb. simpl in *. eauto. Qed.

Lemma get_seg_output_block_inv s fs b0 blk b1 :
  get_seg_output_block s fs 0 b0 = (Ok blk, b1) →
  ∃ f0, fs !! 0 = Some f0 ∧
        blk = UnetOutBlock (spatial_dims s) f0 (seg_out_channels s) (dropout s).
Proof. intros Hb. stage_inv Hb. simpl in *. eauto. Qed.

(** The four single blocks of a constructed network. *)
Lemma construct_single_blocks `{BlockLibrary} s net built :
  new_DynUNet s = (Ok net, built) →
  let fs := planned_filters s in
  let n := length (strides s) in
  ∃ f0 fm fl k0 s0 kl sl,
    fs !! 0 = Some f0 ∧ fs !! (n - 2) = Some fm ∧ fs !! (n - 1) = Some fl ∧
    kernel_size s !! 0 = Some k0 ∧ strides s !! 0 = Some s0 ∧
    kernel_size s !! (n - 1) = Some kl ∧ strides s !! (n - 1) = Some sl ∧
    input_block net = ConvBlock (conv_block s) (conv_params s (in_channels s) f0 k0 s0) ∧
    bottleneck net = ConvBlock (conv_block s) (conv_params s fm fl kl sl) ∧
    cls_output_block net
    = UNetClsOutBlock (spatial_dims s) fl (cls_out_channels s) (pool_type s) (pool_fmap s) ∧
    seg_output_block net = UnetOutBlock (spatial_dims s) f0 (seg_out_channels s) (dropout s).
Proof.
  intros Hnew fs n.
  pose proof (construct_inv _ _ _ Hnew) as Hc.
  pose proof (constructed_depth _ _ _ Hc) as (Hkn & _).
  destruct Hc as (Hge & _).
  pose proof (length_planned_filters s ltac:(lia)) as Hlen. fold fs in Hlen.
  unfold new_DynUNet, construct in Hnew.
  apply bind_ok_inv in Hnew as (fs' & b0 & [Hcf ->]%lift_ok_inv & Hnew).
  assert (fs' = fs) as ->.
  { destruct (check_filters_cases s) as [[? _]|(_ & _ & Hcf')]; [done|].
    rewrite Hcf in Hcf'. by injection Hcf'. }
  apply bind_ok_inv in Hnew as (ib & b1 & Hib & Hnew).
  apply bind_ok_inv in Hnew as (ds & b2 & Hds & Hnew).
  apply bind_ok_inv in Hnew as (bn & b3 & Hbn & Hnew).
  apply bind_ok_inv in Hnew as (us & b4 & Hus & Hnew).
  apply bind_ok_inv in Hnew as (cls & b5 & Hcls & Hnew).
  apply bind_ok_inv in Hnew as (seg & b6 & Hseg & Hnew).
  apply bind_ok_inv in Hnew as (dsh & b7 & Hdsh & Hnew).
  apply bind_ok_inv in Hnew as ([] & b8 & _ & Hnew).
  apply bind_ok_inv in Hnew as (sl & b9 & _ & Hnew).
  injection Hnew as <- _.
  apply get_input_block_inv in Hib as (f0 & k0 & s0 & Hf0 & Hk0 & Hs0 & ->).
  apply get_bottleneck_inv in Hbn as (fm & fl & kl & sl' & Hfm & Hfl & Hkl & Hsl & ->).
  apply get_cls_output_block_inv in Hcls as (fl' & Hfl' & ->).
  apply get_seg_output_block_inv in Hseg as (f0' & Hf0' & ->).
  rewrite Hlen in *. rewrite <- Hkn in *. fold n in Hfm, Hfl, Hfl', Hkl, Hsl.
  exists f0, fm, fl, k0, s0, kl, sl'. simpl.
  split_and!; try done; congruence.
Qed.

Lemma lookup_slice_1_to_neg1 {A} (l : list A) i :
  i < length l - 2 → slice_1_to_neg1 l !! i = l !! S i.
Proof.
  intros Hi. unfold slice_1_to_neg1. rewrite lookup_drop, lookup_take_lt by lia. done.
Qed.

Lemma lookup_slice_to_neg {A} k (l : list A) i :
  i < length l - k → slice_to_neg k l !! i = l !! i.
Proof. intros Hi. unfold slice_to_neg. by rewrite lookup_take_lt. Qed.

Lemma lookup_down_blocks s fs i :
  length fs = length (strides s) → length (kernel_size s) = length (strides s) →
  i < length (strides s) - 2 →
  ∃ fi fo k st,
    fs !! i = Some fi ∧ fs !! S i = Some fo ∧
    kernel_size s !! S i = Some k ∧ strides s !! S i = Some st ∧
    down_blocks s fs !! i = Some (ConvBlock (conv_block s) (conv_params s fi fo k st)).
Proof.
  intros Hfs Hks Hi.
  destruct (lookup_lt_is_Some_2 fs i) as [fi Hfi]; [lia|].
  destruct (lookup_lt_is_Some_2 fs (S i)) as [fo Hfo]; [lia|].
  destruct (lookup_lt_is_Some_2 (kernel_size s) (S i)) as [k Hk]; [lia|].
  destruct (lookup_lt_is_Some_2 (strides s) (S i)) as [st Hst]; [lia|].
  exists fi, fo, k, st. split_and!; try done.
  unfold down_blocks. rewrite list_lookup_fmap, !lookup_zip_with.
  rewrite lookup_slice_to_neg, !lookup_slice_1_to_neg1 by lia.
  by rewrite Hfi, Hfo, Hk, Hst.
Qed.

Lemma lookup_reverse_up_blocks s fs k :
  length fs = length (strides s) → length (kernel_size s) = length (strides s) →
  length (strides s) - 1 ≤ length (output_paddings s) →
  k < length (strides s) - 1 →
  ∃ fi fo kk st op,
    fs !! S k = Some fi ∧ fs !! k = Some fo ∧
    kernel_size s !! S k = Some kk ∧ strides s !! S k = Some st ∧
    output_paddings s !! (length (output_paddings s) - (length (strides s) - 1) + k) = Some op ∧
    slice_rev (up_blocks s fs) !! k
    = Some (ConvBlock UnetUpBlock (up_params s fi fo kk st op (trans_bias s))).
Proof.
  intros Hfs Hks Hops Hk.
  destruct (lookup_lt_is_Some_2 fs (S k)) as [fi Hfi]; [lia|].
  destruct (lookup_lt_is_Some_2 fs k) as [fo Hfo]; [lia|].
  destruct (lookup_lt_is_Some_2 (kernel_size s) (S k)) as [kk Hkk]; [lia|].
  destruct (lookup_lt_is_Some_2 (strides s) (S k)) as [st Hst]; [lia|].
  destruct (lookup_lt_is_Some_2 (output_paddings s)
              (length (output_paddings s) - (length (strides s) - 1) + k)) as [op Hop]; [lia|].
  exists fi, fo, kk, st, op. split_and!; try done.
  pose proof (length_up_blocks s fs) as Hlen.
  unfold slice_rev at 1. rewrite reverse_lookup by lia.
  rewrite Hlen. unfold up_blocks. rewrite list_lookup_fmap, !lookup_zip_with.
  set (j := _ - S k).
  assert (Hj : j = length (strides s) - 2 - k) by (unfold j; lia). clearbody j. subst j.
  unfold slice_from_1. rewrite lookup_drop.
  rewrite !lookup_slice_to_neg by (rewrite length_slice_rev; lia).
  unfold slice_rev. rewrite !reverse_lookup by lia.
  replace (length fs - S (length (strides s) - 2 - k)) with (S k) by lia.
  replace (length fs - S (1 + (length (strides s) - 2 - k))) with k by lia.
  replace (length (kernel_size s) - S (length (strides s) - 2 - k)) with (S k) by lia.
  replace (length (strides s) - S (length (strides s) - 2 - k)) with (S k) by lia.
  replace (length (output_paddings s) - S (length (strides s) - 2 - k))
    with (length (output_paddings s) - (length (strides s) - 1) + k) by lia.
  by rewrite Hfi, Hfo, Hkk, Hst, Hop.
Qed.

Lemma constructed_paddings `{BlockLibrary} s net built :
  constructed s net built →
  length (planned_filters s) = length (strides s) ∧
  length (kernel_size s) = length (strides s) ∧
  3 ≤ length (strides s) ∧
  length (strides s) - 1 ≤ length (output_paddings s).
Proof.
  intros Hc.
  pose proof (constructed_depth _ _ _ Hc) as (Hkn & Hge & _ & Hup & _).
  destruct Hc as (Hfs & _ & _ & _ & _ & Hups & _).
  pose proof (length_planned_filters s ltac:(lia)) as Hlen.
  rewrite Hups, length_up_blocks in Hup. lia.
Qed.

(** The encoder of a constructed network: the input block maps
    [in_channels] to [filters[0]] with [kernel_size[0]] and
    [strides[0]]; downsample block [i] maps [filters[i]] to
    [filters[i+1]] with kernel and stride [i+1]; the bottleneck maps
    [filters[n-2]] to [filters[n-1]] with the last kernel and stride;
    all are of the class chosen by [res_block]; and the chain descends
    through exactly these blocks, in this order. *)
Theorem encoder_wiring `{BlockLibrary} (s : Spec) (net : Net) (built : list Block) :
  new_DynUNet s = (Ok net, built) →
  let fs := net_filters net in
  let n := length (strides s) in
  (skip_blocks (skip_layers net)).*1 = input_block net :: downsamples net ∧
  leaf (skip_layers net) = bottleneck net ∧
  (∃ f0 k0 s0,
     fs !! 0 = Some f0 ∧ kernel_size s !! 0 = Some k0 ∧ strides s !! 0 = Some s0 ∧
     input_block net = ConvBlock (conv_block s) (conv_params s (in_channels s) f0 k0 s0)) ∧
  (∀ i, i < n - 2 →
     ∃ fi fo k st,
       fs !! i = Some fi ∧ fs !! S i = Some fo ∧
       kernel_size s !! S i = Some k ∧ strides s !! S i = Some st ∧
       downsamples net !! i = Some (ConvBlock (conv_block s) (conv_params s fi fo k st))) ∧
  (∃ fm fl kl sl,
     fs !! (n - 2) = Some fm ∧ fs !! (n - 1) = Some fl ∧
     kernel_size s !! (n - 1) = Some kl ∧ strides s !! (n - 1) = Some sl ∧
     bottleneck net = ConvBlock (conv_block s) (conv_params s fm fl kl sl)).
Proof.
  intros Hnew fs n.
  destruct (construct_single_blocks _ _ _ Hnew)
    as (f0 & fm & fl & k0 & s0 & kl & sl & Hf0 & Hfm & Hfl & Hk0 & Hs0 & Hkl & Hsl
        & Hib & Hbn & _ & _).
  apply construct_inv in Hnew as Hc.
  pose proof (constructed_paddings _ _ _ Hc) as (Hlen & Hkn & Hge & Hops).
  pose proof (constructed_depth _ _ _ Hc) as (_ & _ & Hdown & Hup & _ & _ & Hleaf).
  destruct Hc as (_ & Hfs & _ & _ & Hds & _ & _ & _ & _ & _ & _ & _ & Hskip & _).
  unfold fs. rewrite Hfs. split_and!.
  - rewrite (create_skips_blocks _ _ _ _ _ _ Hskip). apply fst_zip.
    simpl. rewrite length_slice_rev. lia.
  - done.
  - by exists f0, k0, s0.
  - intros i Hi. rewrite Hds. by apply lookup_down_blocks.
  - by exists fm, fl, kl, sl.
Qed.

Lemma encoder_wiring_witness :
  ∃ net built,
    @new_DynUNet ShapeLib demo_spec = (Ok net, built) ∧
    (skip_blocks (skip_layers net)).*1 = input_block net :: downsamples net ∧
    ∃ fi fo k st,
      net_filters net !! 1 = Some fi ∧ net_filters net !! 2 = Some fo ∧
      downsamples net !! 1
      = Some (ConvBlock (conv_block demo_spec) (conv_params demo_spec fi fo k st)).
Proof.
  destruct (@new_DynUNet ShapeLib demo_spec) as [[net|e] built] eqn:Hnew;
    [|vm_compute in Hnew; discriminate].
  destruct (@encoder_wiring ShapeLib demo_spec net built Hnew) as (Hchain & _ & _ & Hdown & _).
  destruct (Hdown 1 ltac:(simpl; lia)) as (fi & fo & k & st & Hfi & Hfo & _ & _ & Hblk).
  exists net, built. split; [reflexivity|]. split; [exact Hchain|].
  by exists fi, fo, k, st.
Defined.

Lemma constructed_up_block `{BlockLibrary} s net built k :
  constructed s net built →
  k < length (strides s) - 1 →
  ∃ d fi fo kk st op,
    skip_blocks (skip_layers net) !! k
    = Some (d, ConvBlock UnetUpBlock (up_params s fi fo kk st op (trans_bias s))) ∧
    planned_filters s !! S k = Some fi ∧ planned_filters s !! k = Some fo ∧
    kernel_size s !! S k = Some kk ∧ strides s !! S k = Some st ∧
    output_paddings s !! (length (output_paddings s) - (length (strides s) - 1) + k) = Some op.
Proof.
  intros Hc Hk.
  pose proof (constructed_paddings _ _ _ Hc) as (Hlen & Hkn & Hge & Hops).
  pose proof (constructed_depth _ _ _ Hc) as (_ & _ & Hdown & Hup & _).
  destruct Hc as (_ & Hfs & _ & _ & Hds & Hus & _ & _ & _ & _ & _ & _ & Hskip & _).
  pose proof (create_skips_blocks _ _ _ _ _ _ Hskip) as Hblocks.
  destruct (lookup_reverse_up_blocks s (planned_filters s) k Hlen Hkn Hops Hk)
    as (fi & fo & kk & st & op & Hfi & Hfo & Hkk & Hst & Hop & Hu).
  destruct (lookup_lt_is_Some_2 (input_block net :: downsamples net) k) as [d Hd].
  { simpl. lia. }
  exists d, fi, fo, kk, st, op. split_and!; try done.
  rewrite Hblocks, Hus, lookup_zip_with, Hd, Hu. done.
Qed.

(** The decoder of a constructed network: the upsample block of level
    [k] is an [UnetUpBlock] mapping [filters[k+1]] to [filters[k]] with
    kernel and stride [k+1] and the network's [trans_bias].  Its output
    padding is entry [k] counted from the start of the last
    [len(strides) - 1] output paddings: when more are supplied, the
    leading ones are unused. *)
Theorem decoder_wiring `{BlockLibrary} (s : Spec) (net : Net) (built : list Block) :
  new_DynUNet s = (Ok net, built) →
  let fs := net_filters net in
  let n := length (strides s) in
  let m := length (output_paddings s) in
  n - 1 ≤ m ∧
  (skip_blocks (skip_layers net)).*2 = reverse (upsamples net) ∧
  ∀ k, k < n - 1 →
    ∃ d fi fo kk st op,
      skip_blocks (skip_layers net) !! k
      = Some (d, ConvBlock UnetUpBlock (up_params s fi fo kk st op (trans_bias s))) ∧
      fs !! S k = Some fi ∧ fs !! k = Some fo ∧
      kernel_size s !! S k = Some kk ∧ strides s !! S k = Some st ∧
      output_paddings s !! (m - (n - 1) + k) = Some op.
Proof.
  intros Hnew fs n m.
  apply construct_inv in Hnew as Hc.
  pose proof (constructed_paddings _ _ _ Hc) as (Hlen & Hkn & Hge & Hops).
  pose proof (constructed_depth _ _ _ Hc) as (_ & _ & Hdown & Hup & _).
  pose proof Hc as (_ & Hfs & _ & _ & Hds & Hus & _ & _ & _ & _ & _ & _ & Hskip & _).
  split; [done|]. split.
  { rewrite (create_skips_blocks _ _ _ _ _ _ Hskip). apply snd_zip.
    simpl. rewrite length_slice_rev. lia. }
  intros k Hk. unfold fs. rewrite Hfs. by apply (constructed_up_block s net built).
Qed.

Lemma decoder_wiring_witness :
  ∃ net built,
    @new_DynUNet ShapeLib
      (with_output_paddings [KInt 9; KInt 8; KInt 0; KInt 1; KInt 2] demo_spec)
    = (Ok net, built) ∧
    ∃ d fi fo kk st,
      skip_blocks (skip_layers net) !! 0
      = Some (d, ConvBlock UnetUpBlock
                   (up_params demo_spec fi fo kk st (KInt 0) false)).
Proof.
  set (sp := with_output_paddings [KInt 9; KInt 8; KInt 0; KInt 1; KInt 2] demo_spec).
  destruct (@new_DynUNet ShapeLib sp) as [[net|e] built] eqn:Hnew;
    [|vm_compute in Hnew; discriminate].
  destruct (@decoder_wiring ShapeLib sp net built Hnew) as (_ & _ & Hup).
  destruct (Hup 0 ltac:(simpl; lia)) as (d & fi & fo & kk & st & op & Hblk & _ & _ & _ & _ & Hop).
  simpl in Hop. injection Hop as <-.
  exists net, built. split; [reflexivity|]. by exists d, fi, fo, kk, st.
Defined.

(** The output blocks of a constructed network: the segmentation block
    reads [filters[0]], the classification block [filters[n-1]], and
    the head of level [k] reads [filters[k]], which is what the
    upsample block of its level puts out. *)
Theorem output_wiring `{BlockLibrary} (s : Spec) (net : Net) (built : list Block) :
  new_DynUNet s = (Ok net, built) →
  let fs := net_filters net in
  let n := length (strides s) in
  (∃ f0, fs !! 0 = Some f0 ∧
         seg_output_block net
         = UnetOutBlock (spatial_dims s) f0 (seg_out_channels s) (dropout s)) ∧
  (∃ fl, fs !! (n - 1) = Some fl ∧
         cls_output_block net
         = UNetClsOutBlock (spatial_dims s) fl (cls_out_channels s) (pool_type s) (pool_fmap s)) ∧
  ∀ k : nat, (1 ≤ Z.of_nat k ≤ deep_supr_num s)%Z →
    ∃ fk d cu pu,
      fs !! k = Some fk ∧
      levels (skip_layers net) !! k
      = Some (Z.of_nat k, Some (UnetOutBlock (spatial_dims s) fk (seg_out_channels s) (dropout s))) ∧
      skip_blocks (skip_layers net) !! k = Some (d, ConvBlock cu pu) ∧
      p_out_channels pu = fk.
Proof.
  intros Hnew fs n.
  destruct (construct_single_blocks _ _ _ Hnew)
    as (f0 & fm & fl & k0 & s0 & kl & sl & Hf0 & Hfm & Hfl & _ & _ & _ & _ & _ & _ & Hcls & Hseg).
  apply construct_inv in Hnew as Hc.
  pose proof (constructed_paddings _ _ _ Hc) as (Hlen & Hkn & Hge & Hops).
  pose proof (constructed_dsh_length _ _ _ Hc) as [Hdsh Hle].
  pose proof Hc as (_ & Hfs & _ & _ & _ & _ & _ & _ & _ & _ & Hheads & _).
  unfold fs. rewrite Hfs. split; [by exists f0|]. split; [by exists fl|].
  intros [|k] Hk; [lia|].
  destruct (constructed_up_block s net built (S k) Hc ltac:(lia))
    as (d & fi & fo & kk & st & op & Hblk & _ & Hfo & _).
  exists fo, d, UnetUpBlock, (up_params s fi fo kk st op (trans_bias s)).
  split_and!; [done| |done|done].
  rewrite (constructed_level _ _ _ Hc k) by lia.
  rewrite Hheads. unfold head_blocks. rewrite list_lookup_fmap, lookup_seq_lt by lia.
  simpl. rewrite (list_lookup_total_correct _ _ _ Hfo). do 3 f_equal. lia.
Qed.

Lemma output_wiring_witness :
  ∃ net built,
    @new_DynUNet ShapeLib demo_spec = (Ok net, built) ∧
    ∃ fk d cu pu,
      net_filters net !! 2 = Some fk ∧
      levels (skip_layers net) !! 2 = Some (2%Z, Some (UnetOutBlock 2 fk 2 None)) ∧
      skip_blocks (skip_layers net) !! 2 = Some (d, ConvBlock cu pu) ∧
      p_out_channels pu = fk.
Proof.
  destruct (@new_DynUNet ShapeLib demo_spec) as [[net|e] built] eqn:Hnew;
    [|vm_compute in Hnew; discriminate].
  destruct (@output_wiring ShapeLib demo_spec net built Hnew) as (_ & _ & Hheads).
  assert (H2 : (1 ≤ Z.of_nat 2 ≤ deep_supr_num demo_spec)%Z) by (change (1 ≤ 2 ≤ 2)%Z; lia).
  exists net, built. split; [reflexivity|]. exact (Hheads 2 H2).
Defined.

(** ** The forward pass and the state of the buffer *)

(** The result of [forward], output and buffer, does not depend on what
    the head buffer held before the call: every slot is overwritten
    before the buffer is read, so neither the placeholder nor a value
    left by an earlier pass reaches the output. *)
Theorem forward_ignores_stale_buffer `{BlockLibrary} (s : Spec) (net : Net) (built : list Block)
    (training : bool) (x : Tensor) (hs1 hs2 : list Tensor) :
  new_DynUNet s = (Ok net, built) →
  length hs1 = length (heads net) →
  length hs2 = length (heads net) →
  forward net training x hs1 = forward net training x hs2.
Proof.
  intros Hc%construct_inv Hlen1 Hlen2.
  pose proof (constructed_heads_length _ _ _ Hc) as Hheads.
  destruct (constructed_forward _ _ _ Hc x hs1 Hlen1) as (hs1' & Hf1 & Hl1 & Hs1).
  destruct (constructed_forward _ _ _ Hc x hs2 Hlen2) as (hs2' & Hf2 & Hl2 & Hs2).
  assert (hs2' = hs1') as ->.
  { apply list_eq. intros i.
    destruct (decide (i < Z.to_nat (deep_supr_num s))) as [Hi|Hi].
    - destruct (Hs1 i Hi) as (h & t & Hh & Ht & ->).
      destruct (Hs2 i Hi) as (h' & t' & Hh' & Ht' & ->). congruence.
    - by rewrite !lookup_ge_None_2 by lia. }
  destruct (eval_node (skip_layers net) x) as [bo uo].
  by rewrite (forward_eq net training x hs1 _ _ _ Hf1), (forward_eq net training x hs2 _ _ _ Hf2).
Qed.

Lemma forward_ignores_stale_buffer_witness :
  ∃ net built,
    @new_DynUNet ShapeLib demo_spec = (Ok net, built) ∧
    @forward ShapeLib net true demo_input (heads net)
    = @forward ShapeLib net true demo_input [[7; 7; 7]; []]%Z.
Proof.
  destruct (@new_DynUNet ShapeLib demo_spec) as [[net|e] built] eqn:Hnew;
    [|vm_compute in Hnew; discriminate].
  pose proof (constructed_heads_length _ _ _ (construct_inv _ _ _ Hnew)) as Hlen.
  exists net, built. split; [reflexivity|].
  apply (@forward_ignores_stale_buffer ShapeLib demo_spec net built true demo_input
           (heads net) [[7; 7; 7]; []]%Z Hnew eq_refl).
  by rewrite Hlen.
Defined.

Lemma descend_foldl `{BlockLibrary} n x :
  descend n x = foldl (λ t d, block_forward d t) x (skip_blocks n).*1.
Proof.
  revert x. induction n as [b|index d u next IH sh]; intros x; [done|]. simpl. apply IH.
Qed.

(** The classification output is the classification block on the
    bottleneck on the downsample blocks, in order, on the input block on
    the input, whatever the mode and the buffer: neither the upsample
    blocks nor the heads enter it. *)
Theorem classification_path `{BlockLibrary} (s : Spec) (net : Net) (built : list Block)
    (training : bool) (x : Tensor) (hs : list Tensor) :
  new_DynUNet s = (Ok net, built) →
  length hs = length (heads net) →
  ∃ seg_out hs',
    forward net training x hs
    = (Ok (block_forward (cls_output_block net)
             (block_forward (bottleneck net)
                (foldl (λ t d, block_forward d t) x (input_block net :: downsamples net))),
           seg_out), hs').
Proof.
  intros Hc%construct_inv Hlen.
  pose proof (constructed_depth _ _ _ Hc) as (_ & Hge & Hdown & Hup & _ & _ & Hleaf).
  destruct (constructed_forward _ _ _ Hc x hs Hlen) as (hs' & Hfwd & _ & _).
  pose proof (eval_node_fst (skip_layers net) x) as Hfst.
  rewrite Hleaf, descend_foldl in Hfst.
  destruct Hc as (_ & _ & _ & _ & _ & _ & _ & _ & _ & _ & _ & _ & Hskip & _).
  rewrite (create_skips_blocks _ _ _ _ _ _ Hskip), fst_zip in Hfst
    by (simpl; rewrite length_slice_rev; lia).
  destruct (eval_node (skip_layers net) x) as [bo uo]. simpl in Hfst. subst bo.
  eexists _, hs'. by rewrite (forward_eq net training x hs _ _ _ Hfwd).
Qed.

Lemma classification_path_witness :
  ∃ net built,
    @new_DynUNet ShapeLib demo_spec = (Ok net, built) ∧
    ∃ seg_out hs',
      @forward ShapeLib net false demo_input (heads net)
      = (Ok (@block_forward ShapeLib (cls_output_block net)
               (@block_forward ShapeLib (bottleneck net)
                  (foldl (λ t d, @block_forward ShapeLib d t) demo_input
                         (input_block net :: downsamples net))),
             seg_out), hs').
Proof.
  destruct (@new_DynUNet ShapeLib demo_spec) as [[net|e] built] eqn:Hnew;
    [|vm_compute in Hnew; discriminate].
  exists net, built. split; [reflexivity|].
  exact (@classification_path ShapeLib demo_spec net built false demo_input (heads net)
           Hnew eq_refl).
Defined.

(** ** A skip layer over a buffer of any length *)

Lemma py_setitem_raise {A} (l : list A) i v :
  (Z.of_nat (length l) ≤ i)%Z → py_setitem l i v = Raise IndexError.
Proof.
  intros Hi. unfold py_setitem.
  destruct (Z.ltb_spec i 0); [lia|].
  destruct (Z.ltb_spec i (Z.of_nat (length l))); [lia|]. by rewrite andb_false_r.
Qed.

Lemma write_slots_nonneg n : Forall (λ slot, (0 ≤ slot)%Z) (write_slots n).
Proof.
  induction n as [b|index d u next IH sh]; simpl; [done|].
  apply Forall_app. split; [done|].
  destruct sh; [|done]. destruct (Z.ltb_spec 0 index); [|done].
  apply Forall_singleton. lia.
Qed.

Lemma run_writes_raise `{BlockLibrary} (ws : list (Z * Tensor)) (hs : list Tensor) :
  Forall (λ slot, (0 ≤ slot)%Z) ws.*1 →
  ¬ Forall (λ slot, (slot < Z.of_nat (length hs))%Z) ws.*1 →
  ∃ hs', run_writes ws hs = (Raise IndexError, hs') ∧ length hs' = length hs.
Proof.
  revert hs. induction ws as [|[i v] ws IH]; intros hs Hpos Hout.
  - by destruct Hout.
  - apply Forall_cons in Hpos as [Hi Hpos]. simpl in Hi.
    destruct (decide (i < Z.of_nat (length hs))%Z) as [Hlt|Hge].
    + destruct (IH (<[Z.to_nat i := v]> hs) Hpos) as (hs' & Hrun & Hlen).
      { rewrite length_insert. intros Hall. apply Hout. by constructor. }
      exists hs'. simpl. erewrite bind_ok by (by apply set_head_ok).
      by rewrite length_insert in Hlen.
    + exists hs. split; [|done]. simpl. erewrite bind_raise; [done|].
      unfold set_head. by rewrite py_setitem_raise by lia.
Qed.

(** [DynUNetSkipLayer.forward] on any chain and any buffer: the slots it
    assigns are never negative, so no assignment wraps around to the end
    of the buffer.  When they all lie below the buffer's length the call
    returns its pair; otherwise it raises [IndexError].  Either way the
    buffer keeps its length. *)
Theorem skip_forward_bounds `{BlockLibrary} (n : Node) (x : Tensor) (hs : list Tensor) :
  is_skip_layer n = true →
  Forall (λ slot, (0 ≤ slot)%Z) (write_slots n) ∧
  (Forall (λ slot, (slot < Z.of_nat (length hs))%Z) (write_slots n) →
   ∃ hs', skip_forward n x hs = (Ok (eval_node n x), hs') ∧ length hs' = length hs) ∧
  (¬ Forall (λ slot, (slot < Z.of_nat (length hs))%Z) (write_slots n) →
   ∃ hs', skip_forward n x hs = (Raise IndexError, hs') ∧ length hs' = length hs).
Proof.
  intros Hskip. pose proof (write_slots_nonneg n) as Hpos.
  split; [done|]. split.
  - intros Hlt. destruct (skip_forward_ok n x hs Hskip) as (hs' & Hfwd & Hlen & _); [|eauto].
    rewrite Forall_forall in Hpos, Hlt. apply Forall_forall. intros slot Hin. split; eauto.
  - intros Hout. rewrite <- (head_writes_slots n x) in Hpos, Hout.
    destruct (run_writes_raise _ hs Hpos Hout) as (hs' & Hrun & Hlen).
    exists hs'. by rewrite skip_forward_eq, Hrun.
Qed.

Lemma skip_forward_bounds_witness :
  ∃ net built,
    @new_DynUNet ShapeLib demo_spec = (Ok net, built) ∧
    ∃ hs', @skip_forward ShapeLib (skip_layers net) demo_input [[5]%Z]
           = (Raise IndexError, hs') ∧ length hs' = 1.
Proof.
  destruct (@new_DynUNet ShapeLib demo_spec) as [[net|e] built] eqn:Hnew;
    [|vm_compute in Hnew; discriminate].
  exists net, built. split; [reflexivity|].
  assert (Hskip : is_skip_layer (skip_layers net) = true).
  { vm_compute in Hnew. by injection Hnew as <- _. }
  assert (Hout : ¬ Forall (λ slot, (slot < Z.of_nat (length [[5]%Z]))%Z)
                          (write_slots (skip_layers net))).
  { vm_compute in Hnew. injection Hnew as <- _. simpl.
    intros [Hbad _]%Forall_cons. lia. }
  exact (proj2 (proj2 (@skip_forward_bounds ShapeLib (skip_layers net) demo_input
                         [[5]%Z] Hskip)) Hout).
Defined.

(** ** [get_module_list] *)

(** [get_module_list] builds as many blocks as its shortest argument
    has entries, recording each; sequences of different lengths are cut
    short without an error.  On the upsample path without output
    paddings it raises [TypeError] and builds nothing. *)
Theorem get_module_list_zip (s : Spec) (ins outs : list Z) (ks ss : list KS)
    (cls : BlockClass) (upsample : bool) (ops : option (list KS)) (tb : bool)
    (built : list Block) :
  match upsample, ops with
  | true, None =>
      get_module_list s ins outs ks ss cls upsample ops tb built = (Raise TypeError, built)
  | true, Some ps =>
      ∃ bs, get_module_list s ins outs ks ss cls upsample ops tb built = (Ok bs, built ++ bs) ∧
            Forall (λ b, ∃ p, b = ConvBlock cls p ∧ p_trans_bias p = Some tb) bs ∧
            length bs = Nat.min (length ins) (Nat.min (length outs) (Nat.min (length ks)
                          (Nat.min (length ss) (length ps))))
  | false, _ =>
      ∃ bs, get_module_list s ins outs ks ss cls upsample ops tb built = (Ok bs, built ++ bs) ∧
            Forall (λ b, ∃ p, b = ConvBlock cls p ∧ p_trans_bias p = None) bs ∧
            length bs = Nat.min (length ins) (Nat.min (length outs) (Nat.min (length ks)
                          (length ss)))
  end.
Proof.
  destruct upsample; [destruct ops as [ps|]; [|done]|]; unfold get_module_list.
  - eexists. split.
    + apply (ctor_map_instantiate
               (λ '(in_c, (out_c, (kernel, (stride, output_padding)))),
                  ConvBlock cls (up_params s in_c out_c kernel stride output_padding tb))).
      by intros (in_c & out_c & kernel & stride & op).
    + split; [|by rewrite length_fmap, !length_zip_with].
      apply Forall_fmap, Forall_forall. intros (in_c & out_c & kernel & stride & op) _.
      simpl. eauto.
  - eexists. split.
    + apply (ctor_map_instantiate
               (λ '(in_c, (out_c, (kernel, stride))),
                  ConvBlock cls (conv_params s in_c out_c kernel stride))).
      by intros (in_c & out_c & kernel & stride).
    + split; [|by rewrite length_fmap, !length_zip_with].
      apply Forall_fmap, Forall_forall. intros (in_c & out_c & kernel & stride) _.
      simpl. eauto.
Qed.

(** ** The stubs of [monai/umei/__init__.py] *)

(** [UEncoderBase.forward] raises [NotImplementedError] on every
    argument.  [UDecoderBase.forward] does not: [not NotImplementedError]
    is [False], which is no exception, so its [raise] ends in
    [TypeError]. *)
Theorem umei_forward_stubs (Img States Args Out : Type) (img : Img) (st : States) (args : Args) :
  @Umei.UEncoderBase_forward Img Args Out img args = inl Umei.NotImplementedError ∧
  @Umei.UDecoderBase_forward States Args Out st args = inl Umei.PyTypeError ∧
  @Umei.UDecoderBase_forward States Args Out st args ≠ inl Umei.NotImplementedError.
Proof. by split_and!. Qed.
